(** * PeeSafe Sales Intelligence: the data engine of [web_dashboard.py]

    A shallow embedding of the loader ([load_data]), the global filter
    (lines 76-89) and the aggregations behind the KPI header, the zone map,
    the revenue trajectory and the leaderboards.

    Conventions of the embedding.
    - A pandas object cell is [option string]; [None] is NaN (a missing cell).
    - A numeric source cell is [option Qc]: an exact rational, [None] is NaN.
      Rounding of binary floating point is not modelled.
    - The column [ASP] may be computed by a division, which in pandas yields
      an infinity on a zero divisor; its cells are [fval].
    - [pd.read_csv], [pd.read_excel] and the permissive [pd.to_datetime] are
      library calls: they are parameters of the loader. *)

From Stdlib Require Import ZArith QArith Qcanon Lia Ascii String.
From stdpp Require Import base option list sorting gmap strings.

Local Open Scope Z_scope.

(** ** Cells *)

Definition label := option string.
Definition num := option Qc.

(** A float cell that may hold an infinity. *)
Inductive fval :=
  | Fin (q : Qc)
  | PInf
  | NInf
  | NaN.

(** [datetime64] values: calendar day plus the time within the day. *)
Record timestamp := Timestamp {
  year : Z;
  month : Z;
  day : Z;
  time : Z
}.

Global Instance timestamp_eq_dec : EqDecision timestamp.
Proof. solve_decision. Defined.

Global Instance fval_eq_dec : EqDecision fval.
Proof. solve_decision. Defined.

(** ** Outcomes of a script stage

    [st.stop()] ends the run after a notice was shown; an exception that no
    handler catches ends it with a traceback. *)

Inductive exn :=
  | KeyError (column : string)
  | ValueError.

Inductive notice :=
  | StError (msg : string)
  | StWarning (msg : string).

Inductive outcome (A : Type) :=
  | Done (a : A)
  | Stop (n : notice)
  | Raise (e : exn).

Arguments Done {A} a.
Arguments Stop {A} n.
Arguments Raise {A} e.

Global Instance exn_eq_dec : EqDecision exn.
Proof. solve_decision. Defined.

Global Instance notice_eq_dec : EqDecision notice.
Proof. solve_decision. Defined.

Global Instance outcome_eq_dec {A} `{EqDecision A} : EqDecision (outcome A).
Proof. solve_decision. Defined.

Definition bind {A B} (m : outcome A) (k : A -> outcome B) : outcome B :=
  match m with
  | Done a => k a
  | Stop n => Stop n
  | Raise e => Raise e
  end.

(** ** Strict date parsing: [pd.to_datetime(_, format="%b'%y")] *)

Module Strptime.

Definition lower (c : ascii) : ascii :=
  let n := N_of_ascii c in
  if ((65 <=? n) && (n <=? 90))%N then ascii_of_N (n + 32) else c.

Definition digit (c : ascii) : option Z :=
  let n := N_of_ascii c in
  if ((48 <=? n) && (n <=? 57))%N then Some (Z.of_N n - 48) else None.

(** [%b]: abbreviated month name, matched without regard to case. *)
Definition month_abbr (a b c : ascii) : option Z :=
  let s := String (lower a) (String (lower b) (String (lower c) EmptyString)) in
  if String.eqb s "jan" then Some 1
  else if String.eqb s "feb" then Some 2
  else if String.eqb s "mar" then Some 3
  else if String.eqb s "apr" then Some 4
  else if String.eqb s "may" then Some 5
  else if String.eqb s "jun" then Some 6
  else if String.eqb s "jul" then Some 7
  else if String.eqb s "aug" then Some 8
  else if String.eqb s "sep" then Some 9
  else if String.eqb s "oct" then Some 10
  else if String.eqb s "nov" then Some 11
  else if String.eqb s "dec" then Some 12
  else None.

(** [%y]: two digits; 00-68 are 2000-2068, 69-99 are 1969-1999. *)
Definition century (yy : Z) : Z :=
  if yy <=? 68 then 2000 + yy else 1900 + yy.

(** The whole label must match: three letters, an apostrophe, two digits.
    Day and time default to the first of the month at midnight. *)
Definition parse (s : string) : option timestamp :=
  match s with
  | String a (String b (String c (String q (String d1 (String d2 EmptyString))))) =>
      if Ascii.eqb q "'" then
        match month_abbr a b c, digit d1, digit d2 with
        | Some m, Some y1, Some y2 => Some (Timestamp (century (10 * y1 + y2)) m 1 0)
        | _, _, _ => None
        end
      else None
  | _ => None
  end.

(** Strings that pandas reads as a missing value instead of parsing. *)
Definition nat_strings : list string :=
  ["NaT"; "nat"; "NAT"; "nan"; "NaN"; "NAN"]%string.

(** One cell under [errors='raise']: [Some d] is the cell of the result
    ([d = None] is NaT), [None] means the call raises. *)
Definition cell (l : label) : option (option timestamp) :=
  match l with
  | None => Some None
  | Some s =>
      if bool_decide (s = EmptyString \/ s ∈ nat_strings) then Some None
      else match parse s with
           | Some t => Some (Some t)
           | None => None
           end
  end.

(** The column: raises as soon as one cell does not match. *)
Fixpoint column (col : list label) : option (list (option timestamp)) :=
  match col with
  | [] => Some []
  | l :: col' =>
      match cell l, column col' with
      | Some d, Some ds => Some (d :: ds)
      | _, _ => None
      end
  end.

End Strptime.

(** ** The frames

    A source row holds the columns the script reads; a loaded row is the
    source row with the four columns [load_data] assigns. *)

Record source_row := SourceRow {
  Month2 : label;
  Zone : label;
  Category : label;
  Sub_Category : label;
  SKU_Placed : label;
  Store_Name : label;
  Amount : num;
  Unit_Sold : num;
  ASP_src : num
}.

(** What [pd.read_csv] / [pd.read_excel] hand back: the column names that are
    present and the rows. A cell of an absent column is never read. *)
Record source := Source {
  src_columns : list string;
  src_rows : list source_row
}.

Record row := Row {
  src :> source_row;
  Date : option timestamp;
  ASP : fval;
  Lat : Qc;
  Lon : Qc
}.

Record frame := Frame {
  columns : list string;
  rows : list row
}.

Global Instance source_row_eq_dec : EqDecision source_row.
Proof. solve_decision. Defined.

Global Instance row_eq_dec : EqDecision row.
Proof. solve_decision. Defined.

Global Instance frame_eq_dec : EqDecision frame.
Proof. solve_decision. Defined.

(** ** Zone anchors *)

Record coord := Coord { lat : Qc; lon : Qc }.

Global Instance coord_eq_dec : EqDecision coord.
Proof. solve_decision. Defined.

Global Instance coord_inhabited : Inhabited coord := populate (Coord 0 0).

Definition dec2 (hundredths : Z) : Qc := Q2Qc (hundredths # 100).

Definition ZONE_COORDS : gmap string coord :=
  <["North" := Coord (dec2 2861) (dec2 7720)]>
  (<["West" := Coord (dec2 1907) (dec2 7287)]>
  (<["East" := Coord (dec2 2257) (dec2 8836)]>
  (<["South" := Coord (dec2 1297) (dec2 7759)]>
  (<["Central" := Coord (dec2 2114) (dec2 7908)]> ∅)))).

(** [ZONE_COORDS.get(z, ZONE_COORDS['Central'])]; a NaN zone is no key. *)
Definition zone_anchor (z : label) : coord :=
  default (ZONE_COORDS !!! "Central") (z ≫= (ZONE_COORDS !!.)).

(** ** Dataset loader: [load_data] *)

Inductive read_result :=
  | ReadOk (f : source)
  | FileNotFound
  | ReadFailed (e : string).

Definition endswith (s suffix : string) : bool :=
  let n := String.length s in
  let m := String.length suffix in
  (m <=? n)%nat && String.eqb (substring (n - m) m s) suffix.

(** [df[name]]: the column, or [KeyError] when the frame has none. *)
Definition getitem {A} (f : source) (name : string) (proj : source_row -> A)
  : outcome (list A) :=
  if bool_decide (name ∈ src_columns f) then Done (proj <$> src_rows f)
  else Raise (KeyError name).

(** [df[name] = ...] appends the name unless the column exists. *)
Definition setitem (name : string) (cols : list string) : list string :=
  if bool_decide (name ∈ cols) then cols else cols ++ [name].

(** Elementwise [df['Amount'] / df['Unit Sold']] in float arithmetic. *)
Definition truediv (a u : num) : fval :=
  match a, u with
  | Some x, Some y =>
      if decide (y = 0%Qc) then
        match (x ?= 0)%Qc with
        | Gt => PInf
        | Lt => NInf
        | Eq => NaN
        end
      else Fin (x / y)%Qc
  | _, _ => NaN
  end.

Definition of_num (x : num) : fval :=
  match x with
  | Some q => Fin q
  | None => NaN
  end.

Section Loader.

(** The two readers, and [pd.to_datetime(col, errors='coerce')]: the value
    at a position is decided by the column (pandas may infer one format for
    all of it) and the label there; [None] is NaT. *)
Variables read_csv read_excel : string -> read_result.
Variable to_datetime_coerce : list label -> label -> option timestamp.

(** Lines 32-35: the reader is chosen by the extension. *)
Definition reader (filepath : string) : read_result :=
  if endswith filepath ".csv" then read_csv filepath
  else read_excel filepath.

(** Lines 31-41. *)
Definition read (filepath : string) : outcome source :=
  match reader filepath with
  | ReadOk f => Done f
  | FileNotFound =>
      Stop (StError ("Critical Error: Data file not found at " ++ filepath))
  | ReadFailed e => Stop (StError ("Data Load Error: " ++ e))
  end.

(** Lines 44-47: the strict parse of the whole column, and under the bare
    [except] the permissive parse of the whole column. *)
Definition parse_dates (f : source) : outcome (list (option timestamp)) :=
  let strict :=
    bind (getitem f "Month2" Month2) (fun col =>
      match Strptime.column col with
      | Some ds => Done ds
      | None => Raise ValueError
      end) in
  match strict with
  | Done ds => Done ds
  | _ =>
      bind (getitem f "Month2" Month2) (fun col =>
        Done (to_datetime_coerce col <$> col))
  end.

(** Lines 49-50. *)
Definition derive_asp (f : source) : outcome (list fval) :=
  if bool_decide ("ASP" ∈ src_columns f) then
    Done ((fun r => of_num (ASP_src r)) <$> src_rows f)
  else
    bind (getitem f "Amount" Amount) (fun a =>
    bind (getitem f "Unit Sold" Unit_Sold) (fun u =>
      Done (zip_with truediv a u))).

(** Lines 53-54. *)
Definition anchors (f : source) : outcome (list coord) :=
  bind (getitem f "Zone" Zone) (fun z => Done (zone_anchor <$> z)).

Fixpoint assemble (rs : list source_row) (ds : list (option timestamp))
    (ps : list fval) (cs : list coord) : list row :=
  match rs, ds, ps, cs with
  | r :: rs', d :: ds', p :: ps', c :: cs' =>
      Row r d p (lat c) (lon c) :: assemble rs' ds' ps' cs'
  | _, _, _, _ => []
  end.

Definition load_data (filepath : string) : outcome frame :=
  bind (read filepath) (fun f =>
  bind (parse_dates f) (fun ds =>
  bind (derive_asp f) (fun ps =>
  bind (anchors f) (fun cs =>
    Done (Frame
            (setitem "Lon" (setitem "Lat" (setitem "ASP"
               (setitem "Date" (src_columns f)))))
            (assemble (src_rows f) ds ps cs)))))).

End Loader.

(** The columns [load_data] reads. *)
Definition has_required (f : source) : bool :=
  bool_decide ("Month2" ∈ src_columns f)
  && (bool_decide ("ASP" ∈ src_columns f)
      || (bool_decide ("Amount" ∈ src_columns f)
          && bool_decide ("Unit Sold" ∈ src_columns f)))
  && bool_decide ("Zone" ∈ src_columns f).

(** The strict result of one label that matched. *)
Definition strict_date (l : label) : option timestamp :=
  default None (Strptime.cell l).

(** The parser that decides the date column: the strict one when every label
    of the column matches, else the permissive one. *)
Definition date_of (to_datetime_coerce : list label -> label -> option timestamp)
    (c : list label) : label -> option timestamp :=
  match Strptime.column c with
  | Some _ => strict_date
  | None => to_datetime_coerce c
  end.

(** The loaded row of a source row, given its date. *)
Definition load_row (has_asp : bool) (r : source_row) (d : option timestamp)
  : row :=
  Row r d
      (if has_asp then of_num (ASP_src r) else truediv (Amount r) (Unit_Sold r))
      (lat (zone_anchor (Zone r))) (lon (zone_anchor (Zone r))).

(** ** Filter engine: lines 76-89 *)

(** [Series.unique()]: the distinct values in order of first appearance; NaN
    is a value like the others. *)
Section Unique.
Context {A : Type} `{EqDecision A}.

Fixpoint unique_from (seen l : list A) : list A :=
  match l with
  | [] => []
  | x :: l' =>
      if decide (x ∈ seen) then unique_from seen l'
      else x :: unique_from (x :: seen) l'
  end.

Definition unique (l : list A) : list A := unique_from [] l.
End Unique.

(** [df[name]] on a loaded frame, for a column that came from the source. *)
Definition col {A} (proj : source_row -> A) (df : list row) : list A :=
  (fun r : row => proj r) <$> df.

(** [Series.isin(values)]; NaN is in [values] when [values] holds a NaN. *)
Definition isin (col values : list label) : list bool :=
  (fun v => bool_decide (v ∈ values)) <$> col.

(** Elementwise [&] of two masks. *)
Definition mask_and (a b : list bool) : list bool := zip_with andb a b.

(** [df[mask]]: the rows whose mask entry is true. *)
Fixpoint boolean_index (df : list row) (mask : list bool) : list row :=
  match df, mask with
  | r :: df', b :: mask' =>
      if b then r :: boolean_index df' mask' else boolean_index df' mask'
  | _, _ => []
  end.

(** What the three multiselect widgets return. *)
Record selection := Selection {
  sel_month : list label;
  sel_zone : list label;
  sel_cat : list label
}.

(** Lines 77-79: [if not sel: sel = df[col].unique()]. *)
Definition effective (sel col : list label) : list label :=
  match sel with
  | [] => unique col
  | _ :: _ => sel
  end.

(** The three accepted sets after lines 77-79. *)
Definition eff_months (df : list row) (s : selection) : list label :=
  effective (sel_month s) (col Month2 df).
Definition eff_zones (df : list row) (s : selection) : list label :=
  effective (sel_zone s) (col Zone df).
Definition eff_cats (df : list row) (s : selection) : list label :=
  effective (sel_cat s) (col Category df).

(** Lines 81-85. *)
Definition df_filtered (df : list row) (s : selection) : list row :=
  boolean_index df
    (mask_and (mask_and (isin (col Month2 df) (eff_months df s))
                        (isin (col Zone df) (eff_zones df s)))
              (isin (col Category df) (eff_cats df s))).

(** A record passes when each of its three values is in the accepted set
    of its dimension. *)
Definition accepts (df : list row) (s : selection) (r : row) : Prop :=
  Month2 r ∈ eff_months df s /\ Zone r ∈ eff_zones df s
  /\ Category r ∈ eff_cats df s.

Global Instance accepts_dec df s r : Decision (accepts df s r).
Proof. unfold accepts. apply _. Defined.

(** What an empty selection list amounts to in one dimension. *)
Definition accepts_all (proj : source_row -> label) (df : list row)
    (eff : list label) : Prop :=
  eff = unique (col proj df)
  /\ NoDup eff
  /\ (forall v, v ∈ eff <-> v ∈ col proj df)
  /\ (forall r : row, r ∈ df -> proj r ∈ eff).

(** Lines 87-89. *)
Definition no_data : notice :=
  StWarning "No data matches the selected parameters.".

Definition filter_engine (df : list row) (s : selection) : outcome (list row) :=
  let d := df_filtered df s in
  match d with
  | [] => Stop no_data
  | _ :: _ => Done d
  end.

(** ** Month selector: the sort keys of line 67

    [sorted(df['Month2'].unique(), key=lambda x: pd.to_datetime(x, format=...))]
    computes the strict date of every distinct label before it orders them.
    The keys are modelled, the ordering of the widget's options is not. *)

Fixpoint month_keys (labels : list label) : outcome (list (option timestamp)) :=
  match labels with
  | [] => Done []
  | x :: rest =>
      match Strptime.cell x with
      | Some d => bind (month_keys rest) (fun ds => Done (d :: ds))
      | None => Raise ValueError
      end
  end.

Definition sorted_months_keys (df : list row) : outcome (list (option timestamp)) :=
  month_keys (unique (col Month2 df)).

(** ** Aggregation engine *)

Local Open Scope Qc_scope.

(** [Series.sum()]: NaN counts as zero, the empty sum is zero. *)
Definition nansum (col : list num) : Qc :=
  foldr Qcplus 0 (default 0 <$> col).

(** Float addition and division by a positive count, with the infinities. *)
Definition fadd (a b : fval) : fval :=
  match a, b with
  | NaN, _ | _, NaN => NaN
  | Fin x, Fin y => Fin (x + y)
  | PInf, NInf | NInf, PInf => NaN
  | PInf, _ | _, PInf => PInf
  | NInf, _ | _, NInf => NInf
  end.

Definition fdiv_count (a : fval) (n : nat) : fval :=
  match a with
  | Fin x => Fin (x / Q2Qc (inject_Z (Z.of_nat n)))
  | other => other
  end.

Definition isna (v : fval) : bool :=
  match v with
  | NaN => true
  | _ => false
  end.

(** [Series.mean()]: NaN cells are replaced by zero for the sum and left out
    of the count; with nothing to count the mean is NaN. *)
Definition nanmean (col : list fval) : fval :=
  let count := length (List.filter (fun v => negb (isna v)) col) in
  let total := foldr fadd (Fin 0) ((fun v => if isna v then Fin 0 else v) <$> col) in
  match count with
  | O => NaN
  | S _ => fdiv_count total count
  end.

(** [Series.nunique()]: NaN is not counted. *)
Definition nunique (col : list label) : nat :=
  length (unique (omap id col)).

(** Lines 92-95. *)
Definition kpi_rev (df : list row) : Qc := nansum (col Amount df).
Definition kpi_vol (df : list row) : Qc := nansum (col Unit_Sold df).
Definition kpi_asp (df : list row) : fval := nanmean (ASP <$> df).
Definition kpi_stores (df : list row) : nat := nunique (col Store_Name df).

(** A stable sort. [le x y] says that [x] may stand before [y]; elements
    that may stand either way keep the order they came in. *)
Section StableSort.
Context {A : Type} (le : A -> A -> bool).

Fixpoint insert_sorted (x : A) (l : list A) : list A :=
  match l with
  | [] => [x]
  | y :: l' => if le x y then x :: y :: l' else y :: insert_sorted x l'
  end.

Fixpoint stable_sort (l : list A) : list A :=
  match l with
  | [] => []
  | x :: l' => insert_sorted x (stable_sort l')
  end.
End StableSort.

(** [df.groupby(key)]: rows with a NaN key belong to no group; the groups
    come in ascending key order; [agg] reduces the rows of one group. *)
Section GroupBy.
Context {K V : Type} `{EqDecision K} (le : K -> K -> bool).

Definition group_keys (keys : list (option K)) : list K :=
  stable_sort le (unique (omap id keys)).

Definition groupby (key : row -> option K) (agg : list row -> V)
    (df : list row) : list (K * V) :=
  (fun k => (k, agg (filter (fun r => key r = Some k) df)))
    <$> group_keys (key <$> df).
End GroupBy.

(** Orders of the keys: strings by code point, timestamps by time, tuples
    from the left. *)
Definition str_le (a b : string) : bool := String.leb a b.

Definition Qc_leb (a b : Qc) : bool := bool_decide (a <= b).

Definition ts_le (a b : timestamp) : bool :=
  match (year a ?= year b)%Z with
  | Lt => true
  | Gt => false
  | Eq =>
      match (month a ?= month b)%Z with
      | Lt => true
      | Gt => false
      | Eq =>
          match (day a ?= day b)%Z with
          | Lt => true
          | Gt => false
          | Eq => (time a <=? time b)%Z
          end
      end
  end.

Definition zone_key_le (a b : string * Qc * Qc) : bool :=
  let '(za, lata, lona) := a in
  let '(zb, latb, lonb) := b in
  match String.compare za zb with
  | Lt => true
  | Gt => false
  | Eq =>
      if decide (lata = latb) then Qc_leb lona lonb else Qc_leb lata latb
  end.

(** [Series.nlargest(n)] and [nsmallest(n)] with the default [keep='first']:
    the first [n] of the series in stable descending (ascending) order. *)
Definition nlargest {K} (n : nat) (s : list (K * Qc)) : list (K * Qc) :=
  take n (stable_sort (fun a b => Qc_leb b.2 a.2) s).

Definition nsmallest {K} (n : nat) (s : list (K * Qc)) : list (K * Qc) :=
  take n (stable_sort (fun a b => Qc_leb a.2 b.2) s).

Definition sum_of (val : source_row -> num) (g : list row) : Qc :=
  nansum (col val g).

(** Line 117. *)
Definition zone_agg (df : list row) : list (string * Qc * Qc * (Qc * Qc)) :=
  groupby zone_key_le
    (fun r => match Zone r with
              | Some z => Some (z, Lat r, Lon r)
              | None => None
              end)
    (fun g => (sum_of Amount g, sum_of Unit_Sold g)) df.

(** Line 136; the groups are already in date order and [sort_values] keeps it. *)
Definition trend_df (df : list row) : list (timestamp * Qc) :=
  stable_sort (fun a b => ts_le a.1 b.1)
    (groupby ts_le Date (sum_of Amount) df).

(** Lines 193, 201 and 210. [store_totals] is the grouped series
    [df_filtered.groupby('Store Name')['Amount'].sum()]. *)
Definition store_totals (df : list row) : list (string * Qc) :=
  groupby str_le (fun r : row => Store_Name r) (sum_of Amount) df.

Definition top_stores (df : list row) : list (string * Qc) :=
  nlargest 10 (store_totals df).

Definition bottom_stores (df : list row) : list (string * Qc) :=
  nsmallest 10 (store_totals df).

Definition top_sku (df : list row) : list (string * Qc) :=
  nlargest 10 (groupby str_le (fun r : row => SKU_Placed r) (sum_of Unit_Sold) df).

(** The data handed to the widgets below the filter. *)
Record views := Views {
  v_rev : Qc;
  v_vol : Qc;
  v_asp : fval;
  v_stores : nat;
  v_zone_agg : list (string * Qc * Qc * (Qc * Qc));
  v_trend : list (timestamp * Qc);
  v_top_stores : list (string * Qc);
  v_bottom_stores : list (string * Qc);
  v_top_sku : list (string * Qc)
}.

Definition aggregate (d : list row) : views :=
  Views (kpi_rev d) (kpi_vol d) (kpi_asp d) (kpi_stores d) (zone_agg d)
        (trend_df d) (top_stores d) (bottom_stores d) (top_sku d).

(** The script from line 76 on: the aggregates are computed only when the
    filter did not stop the run. *)
Definition dashboard (df : list row) (s : selection) : outcome views :=
  bind (filter_engine df s) (fun d => Done (aggregate d)).

(** ** The KPI summary in the words of the specification

    The values a column has are its cells that are not NaN. *)

Definition total (vals : list Qc) : Qc := foldr Qcplus 0 vals.

Definition arithmetic_mean (vals : list Qc) : Qc :=
  total vals / Q2Qc (inject_Z (Z.of_nat (length vals))).

(** The same mean in float arithmetic, where a value may be an infinity. *)
Definition float_mean (vals : list fval) : fval :=
  match vals with
  | [] => NaN
  | _ :: _ => fdiv_count (foldr fadd (Fin 0) vals) (length vals)
  end.

Definition values_of (c : list fval) : list fval :=
  List.filter (fun v => negb (isna v)) c.

Definition distinct_count (c : list label) : nat :=
  size (list_to_set (omap id c) : gset string).

(** The two other averages a reader might expect. *)
Definition revenue_over_volume (df : list row) : Qc := kpi_rev df / kpi_vol df.

Definition revenue_weighted_asp (weighted : list (Qc * Qc)) : Qc :=
  total ((fun p => p.1 * p.2) <$> weighted) / total (fst <$> weighted).

(** The amount column of the zone aggregate. *)
Definition zone_amounts (df : list row) : list Qc :=
  (fun g => g.2.1) <$> zone_agg df.

(** ** Sample data

    Tables for the examples are produced by the loader itself, from a source
    that has every column but [ASP], with a permissive parser that knows no
    format at all. *)

Definition all_columns : list string :=
  ["Month2"; "Zone"; "Category"; "Sub Category"; "SKU Placed"; "Store Name";
   "Amount"; "Unit Sold"]%string.

Definition knows_no_format : list label -> label -> option timestamp :=
  fun _ _ => None.

Definition rows_of (o : outcome frame) : list row :=
  match o with
  | Done fr => rows fr
  | _ => []
  end.

Definition sample_load (f : source) : string -> outcome frame :=
  load_data (fun _ => ReadOk f) (fun _ => FileNotFound) knows_no_format.

Definition loaded (rs : list source_row) : list row :=
  rows_of (sample_load (Source all_columns rs) "sales.csv").

Definition sale (m z c store : label) (amount units : Z) : source_row :=
  SourceRow m z c (Some "Wellness") (Some "SKU-1") store
            (Some (Q2Qc (inject_Z amount))) (Some (Q2Qc (inject_Z units))) None.

(** Two sales with selling prices 50 and 100. *)
Definition two_prices : list row :=
  loaded [sale (Some "Nov'24") (Some "North") (Some "Hygiene") (Some "Store A") 100 2;
          sale (Some "Nov'24") (Some "South") (Some "Hygiene") (Some "Store B") 300 3].

(** One sale whose zone cell is empty in the source. *)
Definition zoneless : list row :=
  loaded [sale (Some "Nov'24") None (Some "Hygiene") (Some "Store A") 5 1].

(** The spec's scenario: North 100, North 200, South 300. *)
Definition three_sales : list row :=
  loaded [sale (Some "Nov'24") (Some "North") (Some "Hygiene") (Some "Store A") 100 1;
          sale (Some "Nov'24") (Some "North") (Some "Hygiene") (Some "Store B") 200 2;
          sale (Some "Dec'24") (Some "South") (Some "Hygiene") (Some "Store C") 300 3].

Definition select_all : selection := Selection [] [] [].

(** Two stores with the same revenue. *)
Definition tied_stores : list row :=
  loaded [sale (Some "Nov'24") (Some "North") (Some "Hygiene") (Some "Store A") 100 1;
          sale (Some "Nov'24") (Some "South") (Some "Hygiene") (Some "Store B") 100 2].

(** The rows of a leaderboard whose total is [v]. *)
Definition with_total (v : Qc) (board : list (string * Qc)) : list (string * Qc) :=
  List.filter (fun g => bool_decide (g.2 = v)) board.

(** A source with a complete row and a row that has nothing but its month. *)
Definition hollow_row : source_row :=
  SourceRow (Some "Nov'24") None None None None None None None None.

Definition hollow_source : source :=
  Source all_columns
    [sale (Some "Nov'24") (Some "North") (Some "Hygiene") (Some "Store A") 100 2;
     hollow_row].

(** A source with one label that is no month. *)
Definition garbage_source : source :=
  Source all_columns
    [sale (Some "Nov'24") (Some "North") (Some "Hygiene") (Some "Store A") 100 2;
     sale (Some "garbage") (Some "North") (Some "Hygiene") (Some "Store B") 50 1].

(** ** Notions used by the further properties *)

(** The keys of [ZONE_COORDS]. *)
Definition known_zones : list string :=
  ["North"; "West"; "East"; "South"; "Central"]%string.

(** The columns whose absence makes [load_data] raise. *)
Definition read_columns : list string :=
  ["Month2"; "Amount"; "Unit Sold"; "Zone"]%string.

(** A table whose coordinates are the anchors of its zones, as [load_data]
    leaves it. *)
Definition anchored (df : list row) : Prop :=
  forall r : row, r ∈ df ->
    Lat r = lat (zone_anchor (Zone r)) /\ Lon r = lon (zone_anchor (Zone r)).

(** A selection list that leaves no value of the column out. *)
Definition covers (sel c : list label) : Prop :=
  forall v, v ∈ c -> v ∈ sel.

(** A selection list that stays as it is or becomes stricter: a list with at
    least one entry whose entries are all accepted by the other list. *)
Definition narrows (sel sel' : list label) : Prop :=
  sel = sel' \/ (sel <> [] /\ (sel' = [] \/ forall v, v ∈ sel -> v ∈ sel')).

(** The widgets' initial state: every option selected (lines 69-71). *)
Definition all_selected (df : list row) : selection :=
  Selection (unique (col Month2 df)) (unique (col Zone df))
            (unique (col Category df)).

(** Strictly earlier. *)
Definition earlier (a b : timestamp) : Prop := ts_le a b = true /\ a <> b.

(** The grouped series of line 210. *)
Definition sku_totals (df : list row) : list (string * Qc) :=
  groupby str_le (fun r : row => SKU_Placed r) (sum_of Unit_Sold) df.

(** The orders of the two kinds of leaderboard. *)
Definition desc {K} (a b : K * Qc) : bool := Qc_leb b.2 a.2.
Definition asc {K} (a b : K * Qc) : bool := Qc_leb a.2 b.2.

(** A sale with no units sold and one with the amount refunded. *)
Definition free_gift : list row :=
  loaded [sale (Some "Nov'24") (Some "North") (Some "Hygiene") (Some "Store A") 100 2;
          sale (Some "Nov'24") (Some "South") (Some "Hygiene") (Some "Store B") 40 0].

(** Line 218: [groupby('Zone')['Amount'].sum().sort_values(ascending=False)].
    pandas sorts with an unstable algorithm here, so the order of zones with
    equal sums is not fixed by the code: the sort is a parameter, of which
    the properties say what they need. *)
Definition zone_totals (df : list row) : list (string * Qc) :=
  groupby str_le (fun r : row => Zone r) (sum_of Amount) df.

Definition top_zone
    (sort_values_desc : list (string * Qc) -> list (string * Qc))
    (df : list row) : list (string * Qc) :=
  sort_values_desc (zone_totals df).

(** The columns [load_data] assigns. *)
Definition assigned_columns : list string :=
  ["Date"; "ASP"; "Lat"; "Lon"]%string.

(** No sale of the table has a negative amount. *)
Definition no_negative_amount (df : list row) : Prop :=
  forall (r : row) (a : Qc), r ∈ df -> Amount r = Some a -> 0 <= a.

(** The frame of a load that succeeded. *)
Definition frame_of (o : outcome frame) : frame :=
  match o with
  | Done fr => fr
  | _ => Frame [] []
  end.

Definition hollow_frame : frame := frame_of (sample_load hollow_source "sales.csv").
Definition garbage_frame : frame := frame_of (sample_load garbage_source "sales.csv").

(** The first record of the loaded hollow source: the complete sale. *)
Definition hollow_first : row :=
  List.hd (load_row false hollow_row None) (rows hollow_frame).

(** A source that lacks the month column, and one that has no rows. *)
Definition monthless_source : source :=
  Source ["Zone"; "Amount"; "Unit Sold"]%string [].

Definition empty_source : source := Source all_columns [].

(** * Properties *)

(** Closed equations between lists of rows or rationals are decided by
    evaluation. *)
Ltac by_computation := apply (bool_decide_unpack _); by vm_compute.

(** ** [unique] *)

Section UniqueFacts.
Context {A : Type} `{EqDecision A}.
Implicit Types l seen : list A.

Lemma elem_of_unique_from seen l x :
  x ∈ unique_from seen l <-> x ∈ l /\ x ∉ seen.
Proof.
  revert seen. induction l as [|y l IH]; intros seen; simpl.
  - split; [intros H; inversion H | intros [H _]; inversion H].
  - destruct (decide (y ∈ seen)) as [Hy|Hy].
    + rewrite IH, elem_of_cons. split; [tauto|].
      intros [[->|Hx] Hs]; [contradiction | tauto].
    + rewrite elem_of_cons, IH, !elem_of_cons. split.
      * intros [->|[Hx Hs]]; [tauto|]. split; [tauto|]. tauto.
      * intros [[->|Hx] Hs]; [tauto|].
        destruct (decide (x = y)) as [->|Hne]; [tauto|]. right. tauto.
Qed.

Lemma elem_of_unique l x : x ∈ unique l <-> x ∈ l.
Proof.
  unfold unique. rewrite elem_of_unique_from. split; [tauto|].
  intros H. split; [done|]. apply not_elem_of_nil.
Qed.

Lemma NoDup_unique_from seen l : NoDup (unique_from seen l).
Proof.
  revert seen. induction l as [|y l IH]; intros seen; simpl.
  - constructor.
  - destruct (decide (y ∈ seen)); [apply IH|].
    constructor; [|apply IH].
    rewrite elem_of_unique_from, elem_of_cons. tauto.
Qed.

Lemma NoDup_unique l : NoDup (unique l).
Proof. apply NoDup_unique_from. Qed.

End UniqueFacts.

(** ** The filter *)

Lemma isin_col (proj : source_row -> label) (df : list row) (vs : list label) :
  isin (col proj df) vs = (fun r : row => bool_decide (proj r ∈ vs)) <$> df.
Proof. unfold isin, col. by rewrite <- list_fmap_compose. Qed.

Lemma mask_and_fmap (f g : row -> bool) (df : list row) :
  mask_and (f <$> df) (g <$> df) = (fun r => f r && g r) <$> df.
Proof.
  unfold mask_and. induction df as [|r df IH]; [done|].
  rewrite !fmap_cons. cbn [zip_with]. by rewrite IH.
Qed.

Lemma boolean_index_filter (P : row -> Prop) `{!forall r, Decision (P r)}
    (df : list row) :
  boolean_index df ((fun r => bool_decide (P r)) <$> df) = filter P df.
Proof.
  induction df as [|r df IH]; [done|].
  rewrite fmap_cons, filter_cons. cbn [boolean_index]. rewrite IH.
  destruct (decide (P r)) as [HP|HP].
  - by rewrite (bool_decide_eq_true_2 _ HP).
  - by rewrite (bool_decide_eq_false_2 _ HP).
Qed.

Lemma boolean_index_ext (f g : row -> bool) (df : list row) :
  (forall r, f r = g r) ->
  boolean_index df (f <$> df) = boolean_index df (g <$> df).
Proof.
  intros E. induction df as [|r df IH]; [done|].
  rewrite !fmap_cons. cbn [boolean_index]. by rewrite E, IH.
Qed.

Lemma df_filtered_filter (df : list row) (s : selection) :
  df_filtered df s = filter (accepts df s) df.
Proof.
  unfold df_filtered. rewrite !isin_col, !mask_and_fmap.
  rewrite <- boolean_index_filter. apply boolean_index_ext.
  intros r. unfold accepts.
  repeat case_bool_decide; simpl; try done; tauto.
Qed.

Lemma filter_all (P : row -> Prop) `{!forall r, Decision (P r)} (l : list row) :
  (forall r, r ∈ l -> P r) -> filter P l = l.
Proof.
  induction l as [|r l IH]; intros Hl; [done|].
  rewrite filter_cons_True by (apply Hl; left).
  rewrite IH; [done|]. intros x Hx. apply Hl. by right.
Qed.

Lemma filter_iff_elem (P Q : row -> Prop) `{!forall r, Decision (P r)}
    `{!forall r, Decision (Q r)} (l : list row) :
  (forall r, r ∈ l -> P r <-> Q r) -> filter P l = filter Q l.
Proof.
  induction l as [|r l IH]; intros Hl; [done|].
  rewrite !filter_cons, IH by (intros x Hx; apply Hl; by right).
  pose proof (Hl r (list_elem_of_here _ _)) as Hr.
  destruct (decide (P r)), (decide (Q r)); tauto || done.
Qed.

Lemma effective_nil (c : list label) : effective [] c = unique c.
Proof. reflexivity. Qed.

Lemma effective_covers (proj : source_row -> label) (df : list row)
    (r : row) :
  r ∈ df -> proj r ∈ effective [] (col proj df).
Proof.
  intros Hr. rewrite effective_nil, elem_of_unique. unfold col.
  apply list_elem_of_fmap. by exists r.
Qed.

Lemma effective_nil_accepts_all proj df :
  accepts_all proj df (effective [] (col proj df)).
Proof.
  repeat split.
  - apply NoDup_unique.
  - rewrite effective_nil. apply elem_of_unique.
  - rewrite effective_nil. apply elem_of_unique.
  - intros Hr. by apply effective_covers.
Qed.

(** C1. Empty means all: when the selection list of a dimension is empty, the
    accepted set the filter uses for it is the list of the distinct values of
    that column of the table, without repetition, so every record of the
    table passes that dimension. *)
Theorem empty_selection_means_all (df : list row) (s : selection) :
  (sel_month s = [] -> accepts_all Month2 df (eff_months df s))
  /\ (sel_zone s = [] -> accepts_all Zone df (eff_zones df s))
  /\ (sel_cat s = [] -> accepts_all Category df (eff_cats df s)).
Proof.
  unfold eff_months, eff_zones, eff_cats.
  split; [|split]; intros ->; apply effective_nil_accepts_all.
Qed.

(** C2. The filtered table is the canonical table restricted to the records
    whose period, zone and category are all three in the accepted set of
    their dimension; the records kept stand in the order they had. *)
Theorem df_filtered_conjunctive_stable (df : list row) (s : selection) :
  df_filtered df s = filter (accepts df s) df
  /\ (forall r : row,
        r ∈ df_filtered df s <->
        r ∈ df /\ Month2 r ∈ eff_months df s /\ Zone r ∈ eff_zones df s
        /\ Category r ∈ eff_cats df s)
  /\ sublist (df_filtered df s) df.
Proof.
  rewrite df_filtered_filter. split; [done|]. split.
  - intros r. rewrite list_elem_of_filter. unfold accepts. tauto.
  - apply sublist_filter.
Qed.

Lemma accepts_filtered (df : list row) (s : selection) (r : row) :
  r ∈ df_filtered df s -> accepts (df_filtered df s) s r.
Proof.
  intros Hr. pose proof Hr as Hin.
  rewrite df_filtered_filter, list_elem_of_filter in Hin.
  destruct Hin as [(Hm & Hz & Hc) _].
  unfold accepts, eff_months, eff_zones, eff_cats in *.
  repeat split.
  - destruct (sel_month s); [by apply effective_covers | done].
  - destruct (sel_zone s); [by apply effective_covers | done].
  - destruct (sel_cat s); [by apply effective_covers | done].
Qed.

(** C10. Filtering the filtered table again with the same selection returns
    the filtered table. *)
Theorem df_filtered_idempotent (df : list row) (s : selection) :
  df_filtered (df_filtered df s) s = df_filtered df s.
Proof.
  rewrite (df_filtered_filter (df_filtered df s)).
  apply filter_all. apply accepts_filtered.
Qed.

(** C3. The run stops with the no-data notice, and no aggregate is computed,
    exactly when the filtered table has no record, that is when no record of
    the table passes all three dimensions; otherwise the aggregates of the
    filtered table are computed. Selection lists that are all empty stop the
    run only when the table itself is empty. *)
Theorem empty_result_exactly_when_no_record (df : list row) (s : selection) :
  (dashboard df s = Stop no_data <-> df_filtered df s = [])
  /\ (df_filtered df s = [] <-> forall r, r ∈ df -> ~ accepts df s r)
  /\ (df_filtered df s <> [] ->
        filter_engine df s = Done (df_filtered df s)
        /\ dashboard df s = Done (aggregate (df_filtered df s)))
  /\ (filter_engine df (Selection [] [] []) = Stop no_data <-> df = []).
Proof.
  assert (Hall : df_filtered df (Selection [] [] []) = df).
  { rewrite df_filtered_filter. apply filter_all. intros r Hr.
    repeat split; by apply effective_covers. }
  unfold dashboard, filter_engine. rewrite Hall. repeat split.
  - by destruct (df_filtered df s).
  - by intros ->.
  - rewrite df_filtered_filter. intros E r Hr HP.
    eapply filter_nil_not_elem_of; eauto.
  - rewrite df_filtered_filter. intros H.
    destruct (filter (accepts df s) df) as [|r l] eqn:E; [done|].
    assert (Hr : r ∈ filter (accepts df s) df) by (rewrite E; left).
    apply list_elem_of_filter in Hr as [HP Hr]. by destruct (H r Hr).
  - by destruct (df_filtered df s).
  - by destruct (df_filtered df s).
  - by destruct df.
  - by intros ->.
Qed.

(** ** Sums and means *)

Lemma nansum_total (c : list num) : nansum c = total (omap id c).
Proof.
  unfold nansum, total. induction c as [|[q|] c IH]; [done| |].
  - rewrite fmap_cons. cbn [omap list_omap id foldr]. simpl default.
    by rewrite IH.
  - rewrite fmap_cons. cbn [omap list_omap id foldr]. simpl default.
    rewrite IH. ring.
Qed.

Lemma total_app (a b : list Qc) : total (a ++ b) = total a + total b.
Proof.
  unfold total. induction a as [|x a IH]; simpl; [ring|]. rewrite IH. ring.
Qed.

Lemma fadd_zero_l (v : fval) : fadd (Fin 0) v = v.
Proof. destruct v; simpl; try done. f_equal. ring. Qed.

Lemma nanmean_float_mean (c : list fval) :
  nanmean c = float_mean (values_of c).
Proof.
  unfold nanmean, float_mean, values_of.
  assert (E : foldr fadd (Fin 0) ((fun v => if isna v then Fin 0 else v) <$> c)
              = foldr fadd (Fin 0) (List.filter (fun v => negb (isna v)) c)).
  { induction c as [|v c IH]; [done|]. rewrite fmap_cons. simpl.
    rewrite IH. destruct v; simpl; try done. apply fadd_zero_l. }
  rewrite E. by destruct (List.filter _ c).
Qed.

Lemma values_of_finite (qs : list Qc) : values_of (Fin <$> qs) = Fin <$> qs.
Proof.
  unfold values_of. induction qs as [|q qs IH]; [done|].
  rewrite fmap_cons. simpl. by rewrite IH.
Qed.

Lemma foldr_fadd_finite (qs : list Qc) :
  foldr fadd (Fin 0) (Fin <$> qs) = Fin (total qs).
Proof.
  unfold total. induction qs as [|q qs IH]; [done|].
  rewrite fmap_cons. simpl. by rewrite IH.
Qed.

Lemma float_mean_finite (qs : list Qc) :
  qs <> [] -> float_mean (Fin <$> qs) = Fin (arithmetic_mean qs).
Proof.
  intros Hne. unfold float_mean, arithmetic_mean.
  destruct qs as [|q qs]; [done|].
  rewrite fmap_cons. cbv iota. rewrite <- fmap_cons.
  by rewrite foldr_fadd_finite, length_fmap.
Qed.

Lemma nunique_distinct_count (c : list label) : nunique c = distinct_count c.
Proof.
  unfold nunique, distinct_count.
  rewrite <- (size_list_to_set (C:=gset string) (unique (omap id c)))
    by apply NoDup_unique.
  f_equal. apply set_eq. intros x.
  by rewrite !elem_of_list_to_set, elem_of_unique.
Qed.

Lemma Qc_neq_by_value (a b : Qc) : this a <> this b -> a <> b.
Proof. intros Hne E. apply Hne. by rewrite E. Qed.

(** C8. The KPI summary of a non-empty filtered table: total revenue is the
    sum of the amounts and total volume the sum of the units sold; the average
    selling price is the plain arithmetic mean of the rows' selling prices,
    each row counting once; the outlet count is the number of distinct store
    names. The mean is neither total revenue over total volume nor a mean
    weighted by revenue: on two sales priced 50 and 100 it is 75, the others
    are 80 and 87.5. *)
Theorem kpi_summary :
  (forall df : list row, df <> [] ->
     kpi_rev df = total (omap id (col Amount df))
     /\ kpi_vol df = total (omap id (col Unit_Sold df))
     /\ kpi_asp df = float_mean (values_of (ASP <$> df))
     /\ (forall qs, ASP <$> df = Fin <$> qs ->
           kpi_asp df = Fin (arithmetic_mean qs))
     /\ kpi_stores df = distinct_count (col Store_Name df))
  /\ (exists (df : list row) (qs : list Qc),
        df <> [] /\ ASP <$> df = Fin <$> qs
        /\ arithmetic_mean qs <> revenue_over_volume df
        /\ arithmetic_mean qs
           <> revenue_weighted_asp (zip (omap id (col Amount df)) qs)).
Proof.
  split.
  - intros df Hne. unfold kpi_rev, kpi_vol, kpi_asp, kpi_stores.
    rewrite !nansum_total, nanmean_float_mean, nunique_distinct_count.
    repeat split. intros qs E. rewrite E, values_of_finite.
    apply float_mean_finite. intros ->. by destruct df.
  - exists two_prices, [Q2Qc 50; Q2Qc 100].
    split; [by vm_compute|]. split; [|split].
    + by_computation.
    + apply Qc_neq_by_value. by vm_compute.
    + apply Qc_neq_by_value. by vm_compute.
Qed.

Lemma kpi_summary_two_prices :
  two_prices <> []
  /\ kpi_rev two_prices = total (omap id (col Amount two_prices))
  /\ kpi_vol two_prices = total (omap id (col Unit_Sold two_prices))
  /\ kpi_asp two_prices = float_mean (values_of (ASP <$> two_prices))
  /\ (forall qs, ASP <$> two_prices = Fin <$> qs ->
        kpi_asp two_prices = Fin (arithmetic_mean qs))
  /\ kpi_stores two_prices = distinct_count (col Store_Name two_prices).
Proof.
  assert (Hne : two_prices <> []) by (by vm_compute).
  split; [exact Hne|]. exact (proj1 kpi_summary two_prices Hne).
Defined.

(** ** The stable sort *)

Section StableSortFacts.
Context {A : Type} (le : A -> A -> bool).
Implicit Types l : list A.

Lemma insert_sorted_Permutation x l : insert_sorted le x l ≡ₚ x :: l.
Proof.
  induction l as [|y l IH]; simpl; [done|].
  destruct (le x y); [done|]. rewrite IH. apply Permutation_swap.
Qed.

Lemma stable_sort_Permutation l : stable_sort le l ≡ₚ l.
Proof.
  induction l as [|x l IH]; simpl; [done|].
  by rewrite insert_sorted_Permutation, IH.
Qed.

Lemma length_stable_sort l : length (stable_sort le l) = length l.
Proof. by rewrite stable_sort_Permutation. Qed.

Hypothesis le_total : forall x y, le x y = true \/ le y x = true.
Hypothesis le_trans : forall x y z,
  le x y = true -> le y z = true -> le x z = true.

Lemma insert_sorted_StronglySorted x l :
  StronglySorted (fun a b => le a b = true) l ->
  StronglySorted (fun a b => le a b = true) (insert_sorted le x l).
Proof.
  induction 1 as [|y l Hs IH Hall]; simpl; [repeat constructor|].
  destruct (le x y) eqn:E.
  - constructor; [by constructor|]. constructor; [done|].
    eapply Forall_impl; [exact Hall|]. intros z Hz. by eapply le_trans.
  - constructor; [exact IH|].
    rewrite insert_sorted_Permutation. constructor; [|done].
    destruct (le_total x y); congruence.
Qed.

Lemma stable_sort_StronglySorted l :
  StronglySorted (fun a b => le a b = true) (stable_sort le l).
Proof.
  induction l as [|x l IH]; simpl; [constructor|].
  by apply insert_sorted_StronglySorted.
Qed.
End StableSortFacts.

(** Elements that may stand either way round keep their order. *)
Lemma stable_sort_stable {A} (le : A -> A -> bool) (p : A -> bool)
    (l : list A) :
  (forall x y, p x = true -> p y = true -> le x y = true) ->
  List.filter p (stable_sort le l) = List.filter p l.
Proof.
  intros Htie.
  assert (Hins : forall x s, List.filter p (insert_sorted le x s)
                             = List.filter p (x :: s)).
  { intros x s. induction s as [|y s IH]; [done|]. simpl insert_sorted.
    destruct (le x y) eqn:E; [done|]. simpl. rewrite IH. simpl.
    destruct (p x) eqn:Px; destruct (p y) eqn:Py; try done.
    by rewrite (Htie x y Px Py) in E. }
  induction l as [|x l IH]; [done|]. simpl stable_sort.
  rewrite Hins. simpl. by rewrite IH.
Qed.

(** ** Grouping *)

Section GroupByFacts.
Context {K : Type} `{EqDecision K} (le : K -> K -> bool).
Implicit Types (key : row -> option K) (df : list row).

Lemma elem_of_omap_id (c : list (option K)) (k : K) :
  k ∈ omap id c <-> Some k ∈ c.
Proof.
  rewrite list_elem_of_omap. split.
  - intros (x & Hx & E). unfold id in E. by subst x.
  - intros Hk. by exists (Some k).
Qed.

Lemma group_keys_Permutation (c : list (option K)) :
  group_keys le c ≡ₚ unique (omap id c).
Proof. apply stable_sort_Permutation. Qed.

Lemma NoDup_group_keys (c : list (option K)) : NoDup (group_keys le c).
Proof. rewrite group_keys_Permutation. apply NoDup_unique. Qed.

Lemma elem_of_group_keys key df (k : K) :
  k ∈ group_keys le (key <$> df) <-> exists r, r ∈ df /\ key r = Some k.
Proof.
  rewrite group_keys_Permutation, elem_of_unique, elem_of_omap_id.
  rewrite list_elem_of_fmap. split.
  - intros (r & E & Hr). by exists r.
  - intros (r & Hr & E). by exists r.
Qed.

Lemma length_groupby {V} key (agg : list row -> V) df :
  length (groupby le key agg df) = length (unique (omap id (key <$> df))).
Proof.
  unfold groupby. by rewrite length_fmap, group_keys_Permutation.
Qed.

Lemma elem_of_groupby {V} key (agg : list row -> V) df (k : K) (v : V) :
  (k, v) ∈ groupby le key agg df <->
  (exists r, r ∈ df /\ key r = Some k)
  /\ v = agg (filter (fun r => key r = Some k) df).
Proof.
  unfold groupby. rewrite list_elem_of_fmap. split.
  - intros (k' & E & Hk). simplify_eq. split; [|done].
    by apply elem_of_group_keys.
  - intros [Hk ->]. exists k. split; [done|]. by apply elem_of_group_keys.
Qed.

Lemma groupby_keys {V} key (agg : list row -> V) df :
  fst <$> groupby le key agg df = group_keys le (key <$> df).
Proof.
  unfold groupby. rewrite <- list_fmap_compose. apply list_fmap_id.
Qed.

(** The groups come in ascending key order, each key once. *)
Lemma groupby_keys_sorted {V} key (agg : list row -> V) df :
  (forall x y, le x y = true \/ le y x = true) ->
  (forall x y z, le x y = true -> le y z = true -> le x z = true) ->
  StronglySorted (fun a b => le a b = true) (fst <$> groupby le key agg df)
  /\ NoDup (fst <$> groupby le key agg df).
Proof.
  intros Htot Htrans. rewrite groupby_keys. split.
  - by apply stable_sort_StronglySorted.
  - apply NoDup_group_keys.
Qed.

Lemma sum_of_nil (val : source_row -> num) : sum_of val [] = 0.
Proof. reflexivity. Qed.

Lemma sum_of_cons (val : source_row -> num) (r : row) (g : list row) :
  sum_of val (r :: g) = default 0 (val r) + sum_of val g.
Proof. reflexivity. Qed.

Lemma sum_of_filter_split (val : source_row -> num) (P Q R : row -> Prop)
    `{!forall r, Decision (P r)} `{!forall r, Decision (Q r)}
    `{!forall r, Decision (R r)} df :
  (forall r, R r <-> P r \/ Q r) ->
  (forall r, P r -> Q r -> False) ->
  sum_of val (filter P df) + sum_of val (filter Q df)
  = sum_of val (filter R df).
Proof.
  intros Hor Hdisj. induction df as [|r df IH].
  { rewrite !filter_nil, sum_of_nil. ring. }
  rewrite !filter_cons.
  destruct (decide (P r)) as [HP|HP], (decide (Q r)) as [HQ|HQ],
           (decide (R r)) as [HR|HR];
    rewrite ?sum_of_cons, <- IH;
    try ring; exfalso; first [by eapply Hdisj | apply HR, Hor; tauto
                             | apply Hor in HR; tauto].
Qed.

(** The sums of the groups of a list of distinct keys add up to the sum
    over the rows that have one of these keys. *)
Lemma group_sums_total (val : source_row -> num) key df (ks : list K) :
  NoDup ks ->
  total ((fun k => sum_of val (filter (fun r => key r = Some k) df)) <$> ks)
  = sum_of val (filter (fun r => Exists (fun k => key r = Some k) ks) df).
Proof.
  induction 1 as [|k ks Hk Hnd IH].
  - rewrite (list_filter_iff _ (fun _ => False)).
    + by induction df.
    + intros r. by rewrite Exists_nil.
  - rewrite fmap_cons. unfold total in *. cbn [foldr]. rewrite IH.
    apply sum_of_filter_split.
    + intros r. by rewrite Exists_cons.
    + intros r E Hex. apply Exists_exists in Hex as (k' & Hk' & E').
      rewrite E in E'. by simplify_eq.
Qed.

(** Grouping loses exactly the rows whose key is NaN. *)
Lemma groupby_sum_total (val : source_row -> num) key df :
  total (snd <$> groupby le key (sum_of val) df)
  = sum_of val (filter (fun r => is_Some (key r)) df).
Proof.
  unfold groupby. rewrite <- list_fmap_compose.
  rewrite (group_sums_total val key df) by apply NoDup_group_keys.
  f_equal. apply filter_iff_elem. intros r Hr.
  rewrite Exists_exists. split.
  - intros (k & _ & E). by exists k.
  - intros (k & E). exists k. split; [|done].
    apply elem_of_group_keys. by exists r.
Qed.
End GroupByFacts.

(** ** Zone aggregate against the KPI total *)

Lemma zone_amounts_groupby (df : list row) :
  zone_amounts df
  = snd <$> groupby zone_key_le
      (fun r : row => match Zone r with
                      | Some z => Some (z, Lat r, Lon r)
                      | None => None
                      end)
      (sum_of Amount) df.
Proof.
  unfold zone_amounts, zone_agg, groupby. by rewrite <- !list_fmap_compose.
Qed.

(** The zone aggregate sums the amounts of the rows that have a zone. *)
Lemma zone_amounts_total (df : list row) :
  total (zone_amounts df)
  = kpi_rev (filter (fun r : row => is_Some (Zone r)) df).
Proof.
  rewrite zone_amounts_groupby, groupby_sum_total. unfold kpi_rev, sum_of.
  f_equal. f_equal. apply list_filter_iff. intros r.
  destruct (Zone r); split; intros [x E]; by eauto.
Qed.

(** C9, as amended. For a filtered table in which every record has a zone,
    the KPI total revenue equals the sum of the per-zone amount totals of the
    zone aggregate computed from the same table. *)
Theorem kpi_rev_zone_agg (df : list row) :
  (forall r : row, r ∈ df -> Zone r <> None) ->
  kpi_rev df = total (zone_amounts df).
Proof.
  intros Hz. rewrite zone_amounts_total. f_equal. symmetry.
  apply filter_all. intros r Hr. specialize (Hz r Hr).
  by destruct (Zone r).
Qed.

Lemma kpi_rev_zone_agg_three_sales :
  (forall r : row, r ∈ three_sales -> Zone r <> None)
  /\ kpi_rev three_sales = total (zone_amounts three_sales).
Proof.
  assert (Hz : forall r : row, r ∈ three_sales -> Zone r <> None).
  { intros r Hr. apply list_elem_of_In in Hr. vm_compute in Hr.
    intuition (subst; discriminate). }
  split; [exact Hz|]. exact (kpi_rev_zone_agg three_sales Hz).
Defined.

(** C9, counterexample. A sale of 5 with an empty zone cell passes the filter
    and counts in the KPI total, but belongs to no zone group: the zone
    aggregate is empty and its amounts sum to 0. *)
Lemma zone_agg_misses_zoneless_sale :
  df_filtered zoneless select_all = zoneless
  /\ kpi_rev (df_filtered zoneless select_all) = Q2Qc 5
  /\ zone_agg (df_filtered zoneless select_all) = []
  /\ kpi_rev (df_filtered zoneless select_all)
     <> total (zone_amounts (df_filtered zoneless select_all)).
Proof.
  split; [by_computation|]. split; [by_computation|]. split; [by vm_compute|].
  apply Qc_neq_by_value. by vm_compute.
Qed.

(** ** Leaderboards *)

Lemma str_le_total (a b : string) : str_le a b = true \/ str_le b a = true.
Proof. apply String.leb_total. Qed.

Lemma str_le_trans (a b c : string) :
  str_le a b = true -> str_le b c = true -> str_le a c = true.
Proof.
  unfold str_le, String.leb. revert b c.
  induction a as [|x a IH]; intros [|y b] [|z c]; simpl; try done.
  unfold Ascii.compare.
  destruct (N.compare_spec (N_of_ascii x) (N_of_ascii y)) as [Exy|Lxy|Gxy];
    destruct (N.compare_spec (N_of_ascii y) (N_of_ascii z)) as [Eyz|Lyz|Gyz];
    destruct (N.compare_spec (N_of_ascii x) (N_of_ascii z)) as [Exz|Lxz|Gxz];
    try done; try lia. apply IH.
Qed.

Lemma Qc_leb_total (x y : Qc) : Qc_leb x y = true \/ Qc_leb y x = true.
Proof.
  unfold Qc_leb. destruct (Qc_le_total x y); [left | right];
    by apply bool_decide_eq_true_2.
Qed.

Lemma Qc_leb_trans (x y z : Qc) :
  Qc_leb x y = true -> Qc_leb y z = true -> Qc_leb x z = true.
Proof.
  unfold Qc_leb. rewrite !bool_decide_eq_true. apply Qcle_trans.
Qed.

Section NLargest.
Context {K : Type}.
Implicit Types s : list (K * Qc).

Let desc (a b : K * Qc) : bool := Qc_leb b.2 a.2.

Lemma nlargest_take n s : nlargest n s = take n (stable_sort desc s).
Proof. reflexivity. Qed.

Lemma sorted_desc s :
  StronglySorted (fun a b => b.2 <= a.2) (stable_sort desc s).
Proof.
  assert (Hs : StronglySorted (fun a b => desc a b = true)
                              (stable_sort desc s)).
  { apply stable_sort_StronglySorted.
    - intros a b. apply Qc_leb_total.
    - intros a b c Hab Hbc. unfold desc in *. by eapply Qc_leb_trans. }
  induction Hs as [|a l Hl IH Hall]; constructor; [done|].
  eapply Forall_impl; [exact Hall|]. intros b Hb.
  unfold desc, Qc_leb in Hb. by apply bool_decide_eq_true in Hb.
Qed.

Lemma nlargest_sorted n s :
  StronglySorted (fun a b => b.2 <= a.2) (nlargest n s).
Proof.
  rewrite nlargest_take. pose proof (sorted_desc s) as Hs.
  rewrite <- (take_drop n (stable_sort desc s)) in Hs.
  by apply StronglySorted_app_1_l in Hs.
Qed.

Lemma length_nlargest n s :
  (length (nlargest n s) <= n)%nat /\ (length (nlargest n s) <= length s)%nat.
Proof.
  rewrite nlargest_take, length_take, length_stable_sort. lia.
Qed.

Lemma nlargest_sublist n s x : x ∈ nlargest n s -> x ∈ s.
Proof.
  rewrite nlargest_take. intros Hx.
  rewrite <- (stable_sort_Permutation desc s).
  eapply elem_of_sublist; [exact Hx|]. apply sublist_take.
Qed.

(** What is left out is not larger than what is taken. *)
Lemma nlargest_top `{EqDecision K} n s a b :
  a ∈ nlargest n s -> b ∈ s -> b ∉ nlargest n s -> b.2 <= a.2.
Proof.
  rewrite nlargest_take. intros Ha Hb Hnb.
  rewrite <- (stable_sort_Permutation desc s) in Hb.
  pose proof (sorted_desc s) as Hs.
  rewrite <- (take_drop n (stable_sort desc s)) in Hs, Hb.
  apply elem_of_app in Hb as [Hb|Hb]; [done|].
  by apply (StronglySorted_app_1_elem_of _ _ _ a b Hs).
Qed.

(** Rows with equal totals come in the order of the series, the first
    ones first. *)
Lemma nlargest_ties n s (p : K * Qc -> bool) :
  (forall x y, p x = true -> p y = true -> x.2 = y.2) ->
  List.filter p (nlargest n s) `prefix_of` List.filter p s.
Proof.
  intros Htie. rewrite nlargest_take.
  rewrite <- (stable_sort_stable desc p s).
  - rewrite <- (take_drop n (stable_sort desc s)) at 2.
    rewrite List.filter_app. by eexists.
  - intros x y Px Py. unfold desc, Qc_leb. apply bool_decide_eq_true_2.
    rewrite (Htie x y Px Py). apply Qcle_refl.
Qed.
End NLargest.

Lemma length_store_totals (df : list row) :
  length (store_totals df) = distinct_count (col Store_Name df).
Proof.
  unfold store_totals. rewrite length_groupby, <- nunique_distinct_count.
  unfold nunique, col. done.
Qed.

(** C7, as amended. The top-10 store leaderboard lists stores with their
    summed amounts in descending order, equal sums allowed next to each
    other; it has at most 10 rows and at most as many rows as the filtered
    table has distinct store names; every store left out has a sum no larger
    than any store listed; stores with equal sums keep the order of the
    grouped series, the earlier ones being listed first, and the grouped
    series lists each store once, in ascending order of the store name. *)
Theorem top_stores_leaderboard (df : list row) :
  StronglySorted (fun a b => b.2 <= a.2) (top_stores df)
  /\ (length (top_stores df) <= 10)%nat
  /\ (length (top_stores df) <= distinct_count (col Store_Name df))%nat
  /\ (forall store v, (store, v) ∈ top_stores df ->
        Some store ∈ col Store_Name df
        /\ v = sum_of Amount (filter (fun r : row => Store_Name r = Some store) df))
  /\ (forall a b, a ∈ top_stores df -> b ∈ store_totals df ->
        b ∉ top_stores df -> b.2 <= a.2)
  /\ (forall v, with_total v (top_stores df)
                `prefix_of` with_total v (store_totals df))
  /\ StronglySorted (fun a b => str_le a b = true) (fst <$> store_totals df)
  /\ NoDup (fst <$> store_totals df).
Proof.
  assert (Hkeys := groupby_keys_sorted str_le (fun r : row => Store_Name r)
                     (sum_of Amount) df str_le_total str_le_trans).
  fold (store_totals df) in Hkeys.
  unfold top_stores. split; [apply nlargest_sorted|].
  split; [apply length_nlargest|].
  split; [rewrite <- length_store_totals; apply length_nlargest|].
  split; [|split; [|split; [|exact Hkeys]]].
  - intros store v Hin.
    apply nlargest_sublist, elem_of_groupby in Hin as [(r & Hr & E) ->].
    split; [|done]. unfold col. apply list_elem_of_fmap. by exists r.
  - intros a b. apply nlargest_top.
  - intros v. apply nlargest_ties. intros x y Hx Hy.
    apply bool_decide_eq_true in Hx, Hy. congruence.
Qed.

(** C7, counterexample. Two stores with 100 each are both listed, one after
    the other: the sums do not decrease strictly from row to row. *)
Lemma top_stores_tie_not_strict :
  top_stores (df_filtered tied_stores select_all)
  = [("Store A"%string, Q2Qc 100); ("Store B"%string, Q2Qc 100)]
  /\ ~ Sorted (fun a b => b.2 < a.2)
         (top_stores (df_filtered tied_stores select_all)).
Proof.
  assert (E : top_stores (df_filtered tied_stores select_all)
              = [("Store A"%string, Q2Qc 100); ("Store B"%string, Q2Qc 100)])
    by by_computation.
  split; [exact E|]. rewrite E. intros Hs.
  apply Sorted_inv in Hs as [_ Hd]. apply HdRel_inv in Hd.
  by apply Qclt_not_eq in Hd.
Qed.

(** ** The loader *)

Lemma strptime_column_Some (c : list label) :
  (forall l, l ∈ c -> Strptime.cell l <> None) ->
  Strptime.column c = Some (strict_date <$> c).
Proof.
  induction c as [|l c IH]; intros Hc; [done|].
  rewrite fmap_cons. cbn [Strptime.column].
  rewrite IH by (intros x Hx; apply Hc; by right).
  destruct (Strptime.cell l) eqn:E.
  - unfold strict_date. by rewrite E.
  - by destruct (Hc l (list_elem_of_here _ _)).
Qed.

Lemma strptime_column_None (c : list label) (bad : label) :
  bad ∈ c -> Strptime.cell bad = None -> Strptime.column c = None.
Proof.
  intros Hin Hbad. induction Hin as [bad c|bad l c Hin IH].
  - cbn [Strptime.column]. by rewrite Hbad.
  - cbn [Strptime.column]. rewrite (IH Hbad). by destruct (Strptime.cell l).
Qed.

Lemma assemble_load_rows (has_asp : bool) (rs : list source_row)
    (ds : list (option timestamp)) :
  length ds = length rs ->
  assemble rs ds
    (if has_asp then (fun r => of_num (ASP_src r)) <$> rs
     else zip_with truediv (Amount <$> rs) (Unit_Sold <$> rs))
    (zone_anchor <$> (Zone <$> rs))
  = zip_with (load_row has_asp) rs ds.
Proof.
  revert ds. induction rs as [|r rs IH]; intros [|d ds] Hlen; try done.
  injection Hlen as Hlen. specialize (IH ds Hlen).
  destruct has_asp; rewrite !fmap_cons; cbn [assemble zip_with];
    by rewrite IH.
Qed.

Lemma zip_with_load_row_fmap (has_asp : bool) (rs : list source_row)
    (g : label -> option timestamp) :
  zip_with (load_row has_asp) rs (g <$> (Month2 <$> rs))
  = (fun r => load_row has_asp r (g (Month2 r))) <$> rs.
Proof. induction rs as [|r rs IH]; [done|]. rewrite !fmap_cons. cbn [zip_with]. by rewrite IH. Qed.

(** Rows without a key do not touch the groups. *)
Lemma groupby_skip_null {K V} `{EqDecision K} (le : K -> K -> bool)
    (key : row -> option K) (agg : list row -> V) (d1 d2 : list row) (r : row) :
  key r = None ->
  groupby le key agg (d1 ++ r :: d2) = groupby le key agg (d1 ++ d2).
Proof.
  intros Hr. unfold groupby.
  assert (Hk : omap id (key <$> d1 ++ r :: d2) = omap id (key <$> d1 ++ d2)).
  { rewrite !fmap_app, fmap_cons, !omap_app. cbn [omap list_omap].
    by rewrite Hr. }
  unfold group_keys. rewrite Hk. apply list_fmap_ext. intros _ k _.
  f_equal. f_equal. rewrite !filter_app, filter_cons_False; [done|].
  by rewrite Hr.
Qed.

Lemma trend_skips_null_date (d1 d2 : list row) (r : row) :
  Date r = None -> trend_df (d1 ++ r :: d2) = trend_df (d1 ++ d2).
Proof. intros Hr. unfold trend_df. by rewrite groupby_skip_null. Qed.

Lemma kpi_rev_counts_row (d1 d2 : list row) (r : row) :
  kpi_rev (d1 ++ r :: d2) = default 0 (Amount r) + kpi_rev (d1 ++ d2).
Proof.
  unfold kpi_rev, col. rewrite !nansum_total, !fmap_app, fmap_cons, !omap_app.
  rewrite !total_app. cbn [omap list_omap id].
  destruct (Amount r) as [a|]; cbn [default from_option id];
    unfold total; cbn [foldr]; ring.
Qed.

(** Line 67 raises on a label the strict format does not match, although
    [load_data] accepts a column with such a label. *)
Lemma month_keys_ValueError (labels : list label) (bad : label) :
  bad ∈ labels -> Strptime.cell bad = None -> month_keys labels = Raise ValueError.
Proof.
  intros Hin Hbad. induction Hin as [bad rest|bad x rest Hin IH];
    cbn [month_keys].
  - by rewrite Hbad.
  - rewrite (IH Hbad). by destruct (Strptime.cell x).
Qed.

Lemma sorted_months_keys_ValueError (df : list row) (bad : label) :
  bad ∈ col Month2 df -> Strptime.cell bad = None ->
  sorted_months_keys df = Raise ValueError.
Proof.
  intros Hin Hbad. apply (month_keys_ValueError _ bad); [|done].
  by apply elem_of_unique.
Qed.

Section LoaderFacts.
Variables read_csv read_excel : string -> read_result.
Variable to_datetime_coerce : list label -> label -> option timestamp.

Abbreviation load := (load_data read_csv read_excel to_datetime_coerce).
Abbreviation dates := (parse_dates to_datetime_coerce).

Abbreviation source_of := (reader read_csv read_excel).
Abbreviation parser_for := (date_of to_datetime_coerce).

Lemma parse_dates_Done (f : source) :
  "Month2" ∈ src_columns f ->
  dates f
  = Done (parser_for (Month2 <$> src_rows f) <$> (Month2 <$> src_rows f)).
Proof.
  intros Hm. unfold parse_dates, getitem, date_of.
  rewrite (bool_decide_eq_true_2 _ Hm). cbn [bind].
  destruct (Strptime.column (Month2 <$> src_rows f)) as [ds|] eqn:E; [|done].
  f_equal.
  destruct (decide (Forall (fun l => Strptime.cell l <> None)
                           (Month2 <$> src_rows f))) as [Hall|Hex].
  - rewrite strptime_column_Some in E by by apply Forall_forall.
    by injection E.
  - apply not_Forall_Exists in Hex; [|apply _].
    apply Exists_exists in Hex as (bad & Hin & Hbad).
    assert (Hb : Strptime.cell bad = None).
    { destruct (Strptime.cell bad) eqn:Eb; [|done].
      exfalso. apply Hbad. congruence. }
    by rewrite (strptime_column_None _ bad Hin Hb) in E.
Qed.

Lemma load_data_Done (filepath : string) (f : source) :
  source_of filepath = ReadOk f ->
  has_required f = true ->
  load filepath
  = Done (Frame
            (setitem "Lon" (setitem "Lat" (setitem "ASP"
               (setitem "Date" (src_columns f)))))
            ((fun r => load_row (bool_decide ("ASP" ∈ src_columns f)) r
                         (parser_for (Month2 <$> src_rows f) (Month2 r)))
               <$> src_rows f)).
Proof.
  intros Hread Hreq. unfold has_required in Hreq.
  apply andb_true_iff in Hreq as [Hreq Hz].
  apply andb_true_iff in Hreq as [Hm Hasp].
  apply bool_decide_eq_true in Hm, Hz.
  unfold load_data, read. rewrite Hread. cbn [bind]. rewrite (parse_dates_Done f Hm). cbn [bind].
  unfold derive_asp, anchors, getitem.
  rewrite (bool_decide_eq_true_2 _ Hz).
  destruct (bool_decide ("ASP" ∈ src_columns f)) eqn:Ea.
  - cbn [bind]. do 2 f_equal.
    rewrite (assemble_load_rows true) by by rewrite !length_fmap.
    apply zip_with_load_row_fmap.
  - simpl in Hasp. apply andb_true_iff in Hasp as [Ham Hu].
    rewrite Ham, Hu. cbn [bind]. do 2 f_equal.
    rewrite (assemble_load_rows false) by by rewrite !length_fmap.
    apply zip_with_load_row_fmap.
Qed.
Lemma load_data_KeyError (filepath : string) (f : source) :
  source_of filepath = ReadOk f ->
  has_required f = false ->
  exists c, load filepath = Raise (KeyError c).
Proof.
  intros Hread Hreq. unfold has_required in Hreq.
  unfold load_data, read. rewrite Hread. cbn [bind].
  destruct (decide ("Month2" ∈ src_columns f)) as [Hm|Hm].
  - rewrite (parse_dates_Done f Hm). cbn [bind].
    rewrite (bool_decide_eq_true_2 _ Hm) in Hreq.
    unfold derive_asp, anchors, getitem.
    destruct (bool_decide ("ASP" ∈ src_columns f));
      destruct (bool_decide ("Amount" ∈ src_columns f));
      destruct (bool_decide ("Unit Sold" ∈ src_columns f));
      destruct (bool_decide ("Zone" ∈ src_columns f));
      cbn in Hreq |- *; try done; eauto.
  - unfold parse_dates, getitem. rewrite (bool_decide_eq_false_2 _ Hm).
    cbn [bind]. eauto.
Qed.

Lemma load_data_rows (filepath : string) (f : source) :
  source_of filepath = ReadOk f ->
  has_required f = true ->
  exists fr, load filepath = Done fr
    /\ (fun r : row => src r) <$> rows fr = src_rows f
    /\ (forall r : row, r ∈ rows fr ->
          Date r = parser_for (Month2 <$> src_rows f) (Month2 r)).
Proof.
  intros Hread Hreq. eexists. split; [by apply load_data_Done|].
  cbn [rows]. split.
  - rewrite <- list_fmap_compose. apply list_fmap_id.
  - intros r Hr. apply list_elem_of_fmap in Hr as (x & -> & _). done.
Qed.

(** C4, as amended. [load_data] stops with an error notice when the source
    cannot be read and raises [KeyError] when a column it reads is absent
    ([Month2], [Zone], or [Amount] / [Unit Sold] while [ASP] is absent);
    otherwise it returns a table that holds every row of the source, in
    the order of the source and with the cells as read, empty ones
    included: no row is checked for empty cells and none is dropped. *)
Theorem load_data_keeps_every_row (filepath : string) :
  match source_of filepath with
  | ReadOk f =>
      if has_required f then
        exists fr, load filepath = Done fr
                   /\ (fun r : row => src r) <$> rows fr = src_rows f
      else exists c, load filepath = Raise (KeyError c)
  | FileNotFound =>
      load filepath
      = Stop (StError ("Critical Error: Data file not found at " ++ filepath))
  | ReadFailed e => load filepath = Stop (StError ("Data Load Error: " ++ e))
  end.
Proof.
  destruct (source_of filepath) as [f| |e] eqn:Hread.
  - destruct (has_required f) eqn:Hreq.
    + destruct (load_data_rows filepath f Hread Hreq) as (fr & E & Hs & _).
      by exists fr.
    + exact (load_data_KeyError filepath f Hread Hreq).
  - unfold load_data, read. by rewrite Hread.
  - unfold load_data, read. by rewrite Hread.
Qed.

(** C5. The label Nov'24 parses to November 2024. A label such as garbage
    does not match the month-year format, yet the load does not raise: the
    column is parsed again permissively and a label the permissive parser
    cannot read gets a null date. A record with a null date adds nothing to
    the revenue-per-date series, and its amount is counted in the KPI
    total revenue. *)
Theorem unparseable_label_gives_null_date (filepath : string) (f : source)
    (bad : label) :
  source_of filepath = ReadOk f ->
  has_required f = true ->
  bad ∈ Month2 <$> src_rows f ->
  Strptime.cell bad = None ->
  to_datetime_coerce (Month2 <$> src_rows f) bad = None ->
  Strptime.cell (Some "Nov'24") = Some (Some (Timestamp 2024 11 1 0))
  /\ Strptime.cell (Some "garbage") = None
  /\ (exists fr, load filepath = Done fr
       /\ (fun r : row => src r) <$> rows fr = src_rows f
       /\ forall r : row, r ∈ rows fr -> Month2 r = bad -> Date r = None)
  /\ (forall (d1 d2 : list row) (r : row), Date r = None ->
        trend_df (d1 ++ r :: d2) = trend_df (d1 ++ d2)
        /\ kpi_rev (d1 ++ r :: d2)
           = default 0 (Amount r) + kpi_rev (d1 ++ d2)).
Proof.
  intros Hread Hreq Hin Hbad Hco. split; [done|]. split; [done|]. split.
  - destruct (load_data_rows filepath f Hread Hreq) as (fr & E & Hs & Hd).
    exists fr. split; [done|]. split; [done|]. intros r Hr Hm.
    rewrite (Hd r Hr), Hm. unfold date_of.
    by rewrite (strptime_column_None _ bad Hin Hbad).
  - intros d1 d2 r Hr. split.
    + by apply trend_skips_null_date.
    + apply kpi_rev_counts_row.
Qed.

(** C6. The fallback of the date parse is decided for the column as a
    whole. When every label matches the month-year format, every record
    gets its strict date. When one label does not, every record gets the
    date the permissive parser gives its label in this column, also the
    records whose label matches the format: where the permissive parser
    reads such a label differently, or not at all, the record's date
    differs from its strict date. *)
Theorem date_fallback_is_column_wide (filepath : string) (f : source) :
  source_of filepath = ReadOk f ->
  has_required f = true ->
  exists fr, load filepath = Done fr
    /\ ((forall l, l ∈ Month2 <$> src_rows f -> Strptime.cell l <> None) ->
         forall r : row, r ∈ rows fr -> Date r = strict_date (Month2 r))
    /\ ((exists bad, bad ∈ Month2 <$> src_rows f /\ Strptime.cell bad = None) ->
         forall r : row, r ∈ rows fr ->
           Date r = to_datetime_coerce (Month2 <$> src_rows f) (Month2 r)
           /\ (to_datetime_coerce (Month2 <$> src_rows f) (Month2 r)
                 <> strict_date (Month2 r) ->
               Date r <> strict_date (Month2 r))).
Proof.
  intros Hread Hreq.
  destruct (load_data_rows filepath f Hread Hreq) as (fr & E & Hs & Hd).
  exists fr. split; [done|]. split.
  - intros Hall r Hr. rewrite (Hd r Hr). unfold date_of.
    by rewrite (strptime_column_Some _ Hall).
  - intros (bad & Hin & Hbad) r Hr.
    assert (Er : Date r = to_datetime_coerce (Month2 <$> src_rows f) (Month2 r)).
    { rewrite (Hd r Hr). unfold date_of.
      by rewrite (strptime_column_None _ bad Hin Hbad). }
    split; [done|]. by rewrite Er.
Qed.
End LoaderFacts.

(** ** The theorems on sample data *)

Lemma empty_selection_three_sales :
  accepts_all Month2 three_sales (eff_months three_sales select_all)
  /\ accepts_all Zone three_sales (eff_zones three_sales select_all)
  /\ accepts_all Category three_sales (eff_cats three_sales select_all).
Proof.
  destruct (empty_selection_means_all three_sales select_all) as (Hm & Hz & Hc).
  exact (conj (Hm eq_refl) (conj (Hz eq_refl) (Hc eq_refl))).
Defined.

Lemma three_sales_not_stopped :
  df_filtered three_sales select_all <> []
  /\ filter_engine three_sales select_all
     = Done (df_filtered three_sales select_all)
  /\ dashboard three_sales select_all
     = Done (aggregate (df_filtered three_sales select_all)).
Proof.
  assert (Hne : df_filtered three_sales select_all <> []) by (by vm_compute).
  split; [exact Hne|].
  exact (proj1 (proj2 (proj2
    (empty_result_exactly_when_no_record three_sales select_all))) Hne).
Defined.

(** C4, counterexample. A source whose second row has no zone, amount, units
    sold, category, subcategory, SKU or store name loads without failure, and
    the row is in the table with its empty cells. *)
Lemma load_data_accepts_empty_cells :
  exists fr, sample_load hollow_source "sales.csv" = Done fr
    /\ (fun r : row => src r) <$> rows fr = src_rows hollow_source
    /\ exists r : row, r ∈ rows fr
         /\ Zone r = None /\ Amount r = None /\ Unit_Sold r = None
         /\ Category r = None /\ Sub_Category r = None
         /\ SKU_Placed r = None /\ Store_Name r = None.
Proof.
  destruct (load_data_rows (fun _ => ReadOk hollow_source)
              (fun _ => FileNotFound) knows_no_format "sales.csv"
              hollow_source eq_refl eq_refl) as (fr & E & Hs & _).
  exists fr. split; [exact E|]. split; [exact Hs|].
  assert (Hr : hollow_row ∈ (fun r : row => src r) <$> rows fr).
  { rewrite Hs. right. left. }
  apply list_elem_of_fmap in Hr as (r & Er & Hr).
  exists r. split; [exact Hr|]. by rewrite <- Er.
Qed.

Lemma garbage_label_null_date :
  (exists fr, sample_load garbage_source "sales.csv" = Done fr
     /\ (fun r : row => src r) <$> rows fr = src_rows garbage_source
     /\ forall r : row, r ∈ rows fr -> Month2 r = Some "garbage"%string ->
          Date r = None)
  /\ (forall (d1 d2 : list row) (r : row), Date r = None ->
        trend_df (d1 ++ r :: d2) = trend_df (d1 ++ d2)
        /\ kpi_rev (d1 ++ r :: d2) = default 0 (Amount r) + kpi_rev (d1 ++ d2)).
Proof.
  assert (Hin : Some "garbage"%string ∈ Month2 <$> src_rows garbage_source)
    by (right; left).
  exact (proj2 (proj2
    (unparseable_label_gives_null_date (fun _ => ReadOk garbage_source)
       (fun _ => FileNotFound) knows_no_format "sales.csv" garbage_source
       (Some "garbage"%string) eq_refl eq_refl Hin eq_refl eq_refl))).
Defined.

Lemma garbage_label_changes_other_dates :
  exists fr, sample_load garbage_source "sales.csv" = Done fr
    /\ forall r : row, r ∈ rows fr ->
         Date r = knows_no_format (Month2 <$> src_rows garbage_source) (Month2 r)
         /\ (knows_no_format (Month2 <$> src_rows garbage_source) (Month2 r)
               <> strict_date (Month2 r) ->
             Date r <> strict_date (Month2 r)).
Proof.
  destruct (date_fallback_is_column_wide (fun _ => ReadOk garbage_source)
              (fun _ => FileNotFound) knows_no_format "sales.csv"
              garbage_source eq_refl eq_refl) as (fr & E & _ & Hbad).
  exists fr. split; [exact E|]. apply Hbad.
  exists (Some "garbage"%string). split; [right; left | reflexivity].
Defined.

(** ** Scenarios of the specification *)

Example strptime_nov24 :
  Strptime.parse "Nov'24" = Some (Timestamp 2024 11 1 0).
Proof. reflexivity. Qed.

Example strptime_garbage : Strptime.parse "garbage" = None.
Proof. reflexivity. Qed.

Example unknown_zone_is_central :
  zone_anchor (Some "Unknown"%string) = Coord (dec2 2114) (dec2 7908)
  /\ zone_anchor None = Coord (dec2 2114) (dec2 7908).
Proof. split; by_computation. Qed.

Example three_sales_by_zone :
  zone_amounts three_sales = [Q2Qc 300; Q2Qc 300]
  /\ fst <$> zone_agg three_sales
     = [("North"%string, dec2 2861, dec2 7720);
        ("South"%string, dec2 1297, dec2 7759)]
  /\ length (df_filtered three_sales (Selection [] [Some "South"%string] [])) = 1%nat
  /\ kpi_rev (df_filtered three_sales (Selection [] [Some "South"%string] []))
     = Q2Qc 300.
Proof. repeat split; by_computation. Qed.

(** With the garbage label in the column and a permissive parser that reads
    nothing, the sale of Nov'24 loses its date too; the revenue series is
    empty while the KPI total counts both sales. *)
Example garbage_source_views :
  Date <$> rows_of (sample_load garbage_source "sales.csv") = [None; None]
  /\ trend_df (rows_of (sample_load garbage_source "sales.csv")) = []
  /\ kpi_rev (rows_of (sample_load garbage_source "sales.csv")) = Q2Qc 150.
Proof. repeat split; by_computation. Qed.

(** * Further properties *)

(** ** Zone anchors and the loader *)

(** X1. A zone that is not a key of [ZONE_COORDS], the empty cell included,
    gets the anchor of Central. *)
Theorem zone_anchor_fallback (z : label) :
  (forall s, s ∈ known_zones -> z <> Some s) ->
  zone_anchor z = zone_anchor (Some "Central"%string)
  /\ zone_anchor z = Coord (dec2 2114) (dec2 7908).
Proof.
  intros Hz.
  assert (Hc : zone_anchor (Some "Central"%string) = Coord (dec2 2114) (dec2 7908))
    by by_computation.
  rewrite Hc. cut (zone_anchor z = Coord (dec2 2114) (dec2 7908)); [done|].
  destruct z as [s|]; [|exact Hc].
  unfold zone_anchor. cbn [mbind option_bind].
  assert (Hs : ZONE_COORDS !! s = None).
  { unfold ZONE_COORDS.
    assert (Hne : forall k, k ∈ known_zones -> k <> s).
    { intros k Hk E. apply (Hz s); [by rewrite <- E | done]. }
    rewrite !lookup_insert_ne; [apply lookup_empty|..]; apply Hne;
      unfold known_zones;
      repeat first [apply list_elem_of_here | apply list_elem_of_further]. }
  rewrite Hs. exact Hc.
Qed.

Lemma zone_anchor_fallback_unknown :
  (forall s, s ∈ known_zones -> Some "Unknown"%string <> Some s)
  /\ zone_anchor (Some "Unknown"%string) = zone_anchor (Some "Central"%string)
  /\ zone_anchor (Some "Unknown"%string) = Coord (dec2 2114) (dec2 7908).
Proof.
  assert (Hz : forall s, s ∈ known_zones -> Some "Unknown"%string <> Some s).
  { intros s Hs E. injection E as <-. apply list_elem_of_In in Hs.
    vm_compute in Hs. intuition discriminate. }
  split; [exact Hz|]. exact (zone_anchor_fallback (Some "Unknown"%string) Hz).
Defined.

Lemma unique_from_fmap_inj {A B} `{EqDecision A} `{EqDecision B} (g : A -> B)
    (seen l : list A) :
  Inj (=) (=) g ->
  unique_from (g <$> seen) (g <$> l) = g <$> unique_from seen l.
Proof.
  intros Hg. revert seen. induction l as [|x l IH]; intros seen; [done|].
  rewrite fmap_cons. cbn [unique_from].
  destruct (decide (x ∈ seen)) as [Hx|Hx].
  - rewrite decide_True by by apply list_elem_of_fmap_2. apply IH.
  - rewrite decide_False by by rewrite (list_elem_of_fmap_inj g).
    rewrite fmap_cons, <- IH. done.
Qed.

Lemma unique_fmap_inj {A B} `{EqDecision A} `{EqDecision B} (g : A -> B)
    (l : list A) :
  Inj (=) (=) g -> unique (g <$> l) = g <$> unique l.
Proof. intros Hg. apply (unique_from_fmap_inj g [] l Hg). Qed.

Lemma anchored_sublist (d df : list row) :
  sublist d df -> anchored df -> anchored d.
Proof. intros Hs Ha r Hr. apply Ha. by eapply elem_of_sublist. Qed.

Lemma anchored_zone_keys (d : list row) :
  anchored d ->
  omap id ((fun r : row => match Zone r with
                           | Some z => Some (z, Lat r, Lon r)
                           | None => None
                           end) <$> d)
  = (fun z => (z, lat (zone_anchor (Some z)), lon (zone_anchor (Some z))))
      <$> omap id (col Zone d).
Proof.
  intros Ha. unfold col. induction d as [|r d IH]; [done|].
  rewrite !fmap_cons. cbn [omap list_omap id].
  destruct (Ha r (list_elem_of_here _ _)) as [Hlat Hlon].
  rewrite IH by (intros x Hx; apply Ha; by right).
  destruct (Zone r) as [z|]; [|done].
  by rewrite fmap_cons, Hlat, Hlon.
Qed.

(** In a table whose coordinates are the anchors of its zones, the zone
    aggregate has one row for each distinct zone, and the coordinates of a
    row are the anchor of its zone. *)
Lemma zone_agg_one_row_per_zone (d : list row) :
  anchored d ->
  length (zone_agg d) = distinct_count (col Zone d)
  /\ (forall z la lo sums, (z, la, lo, sums) ∈ zone_agg d ->
        Some z ∈ col Zone d
        /\ la = lat (zone_anchor (Some z)) /\ lo = lon (zone_anchor (Some z))).
Proof.
  intros Ha. split.
  - unfold zone_agg. rewrite length_groupby, (anchored_zone_keys d Ha).
    rewrite unique_fmap_inj, length_fmap, <- nunique_distinct_count; [done|].
    intros x y E. by injection E.
  - intros z la lo sums Hin. unfold zone_agg in Hin.
    apply elem_of_groupby in Hin as [(r & Hr & E) _].
    destruct (Ha r Hr) as [Hlat Hlon].
    destruct (Zone r) as [z'|] eqn:Ez; [|done]. injection E as -> <- <-.
    split; [|by rewrite Hlat, Hlon].
    unfold col. apply list_elem_of_fmap. exists r. by rewrite Ez.
Qed.

Section LoaderMore.
Variables read_csv read_excel : string -> read_result.
Variable to_datetime_coerce : list label -> label -> option timestamp.

Abbreviation load' := (load_data read_csv read_excel to_datetime_coerce).
Abbreviation source_of' := (reader read_csv read_excel).
Abbreviation parser_for' := (date_of to_datetime_coerce).

Lemma load_data_Done_inv (filepath : string) (fr : frame) :
  load' filepath = Done fr ->
  exists f, source_of' filepath = ReadOk f
    /\ has_required f = true
    /\ rows fr
       = (fun r => load_row (bool_decide ("ASP" ∈ src_columns f)) r
                     (parser_for' (Month2 <$> src_rows f) (Month2 r)))
           <$> src_rows f.
Proof.
  intros Hload.
  destruct (source_of' filepath) as [f| |e] eqn:Hread.
  - exists f. split; [done|].
    destruct (has_required f) eqn:Hreq.
    + split; [done|].
      rewrite (load_data_Done read_csv read_excel to_datetime_coerce
                 filepath f Hread Hreq) in Hload.
      by injection Hload as <-.
    + destruct (load_data_KeyError read_csv read_excel to_datetime_coerce
                  filepath f Hread Hreq) as [c Hc].
      by rewrite Hc in Hload.
  - unfold load_data, read in Hload. by rewrite Hread in Hload.
  - unfold load_data, read in Hload. by rewrite Hread in Hload.
Qed.

Lemma load_data_col_Month2 (filepath : string) (fr : frame) (f : source) :
  source_of' filepath = ReadOk f ->
  load' filepath = Done fr ->
  col Month2 (rows fr) = Month2 <$> src_rows f.
Proof.
  intros Hread Hload.
  destruct (load_data_Done_inv filepath fr Hload) as (f' & Hread' & _ & ->).
  rewrite Hread in Hread'. injection Hread' as <-.
  unfold col. by rewrite <- list_fmap_compose.
Qed.

Lemma load_data_anchored (filepath : string) (fr : frame) (s : selection) :
  load' filepath = Done fr ->
  anchored (rows fr) /\ anchored (df_filtered (rows fr) s).
Proof.
  intros Hload.
  assert (Ha : anchored (rows fr)).
  { destruct (load_data_Done_inv filepath fr Hload) as (f & _ & _ & ->).
    intros r Hr. by apply list_elem_of_fmap in Hr as (x & -> & _). }
  split; [exact Ha|]. eapply anchored_sublist; [|exact Ha].
  rewrite df_filtered_filter. apply sublist_filter.
Qed.

(** X2. For a loaded table and any selection, the zone aggregate of the
    filtered table has exactly one row for each distinct zone of the filtered
    table, placed at the anchor of that zone: records of one zone never split
    into several map markers. *)
Theorem zone_agg_one_marker_per_zone (filepath : string) (fr : frame)
    (s : selection) :
  load' filepath = Done fr ->
  length (zone_agg (df_filtered (rows fr) s))
  = distinct_count (col Zone (df_filtered (rows fr) s))
  /\ (forall z la lo sums,
        (z, la, lo, sums) ∈ zone_agg (df_filtered (rows fr) s) ->
        Some z ∈ col Zone (df_filtered (rows fr) s)
        /\ la = lat (zone_anchor (Some z)) /\ lo = lon (zone_anchor (Some z))).
Proof.
  intros Hload. apply zone_agg_one_row_per_zone.
  by apply (load_data_anchored filepath fr s).
Qed.

(** X3. When [load_data] ends with an exception, the exception is the
    [KeyError] of a column that the loader reads and the source lacks: a
    label that is no date, an empty cell or a zero divisor never makes the
    load raise. *)
Theorem load_data_raises_only_KeyError (filepath : string) (e : exn) :
  load' filepath = Raise e ->
  exists f c, source_of' filepath = ReadOk f
    /\ e = KeyError c /\ c ∈ read_columns /\ c ∉ src_columns f.
Proof.
  intros Hload. unfold load_data, read in Hload.
  destruct (source_of' filepath) as [f| |msg] eqn:Hread; [|done|done].
  exists f. cbn [bind] in Hload.
  destruct (decide ("Month2" ∈ src_columns f)) as [Hm|Hm].
  - rewrite (parse_dates_Done to_datetime_coerce f Hm) in Hload.
    cbn [bind] in Hload. unfold derive_asp, anchors, getitem in Hload.
    destruct (bool_decide ("ASP" ∈ src_columns f));
      destruct (decide ("Amount" ∈ src_columns f)) as [Ha|Ha];
      rewrite ?(bool_decide_eq_true_2 _ Ha), ?(bool_decide_eq_false_2 _ Ha)
        in Hload;
      destruct (decide ("Unit Sold" ∈ src_columns f)) as [Hu|Hu];
      rewrite ?(bool_decide_eq_true_2 _ Hu), ?(bool_decide_eq_false_2 _ Hu)
        in Hload;
      destruct (decide ("Zone" ∈ src_columns f)) as [Hz|Hz];
      rewrite ?(bool_decide_eq_true_2 _ Hz), ?(bool_decide_eq_false_2 _ Hz)
        in Hload;
      cbn [bind] in Hload; try done; injection Hload as <-;
      eexists; (split; [done|]); (split; [reflexivity|]);
      (split; [|done]); unfold read_columns;
      repeat first [apply list_elem_of_here | apply list_elem_of_further].
  - unfold parse_dates, getitem in Hload.
    rewrite (bool_decide_eq_false_2 _ Hm) in Hload. cbn [bind] in Hload.
    injection Hload as <-. exists "Month2"%string.
    split; [done|]. split; [done|]. split; [|done]. left.
Qed.

(** X4. A source without rows is no error: it loads to an empty table, the
    month selector has no key to compute, and the dashboard stops with the
    no-data notice whatever the selection. *)
Theorem load_data_empty_source (filepath : string) (f : source) :
  source_of' filepath = ReadOk f ->
  has_required f = true ->
  src_rows f = [] ->
  exists fr, load' filepath = Done fr
    /\ rows fr = []
    /\ sorted_months_keys (rows fr) = Done []
    /\ forall s, dashboard (rows fr) s = Stop no_data.
Proof.
  intros Hread Hreq Hrows. eexists. split; [by apply load_data_Done|].
  cbn [rows]. rewrite Hrows. done.
Qed.

Lemma month_keys_Done (labels : list label) :
  (forall l, l ∈ labels -> Strptime.cell l <> None) ->
  month_keys labels = Done (strict_date <$> labels).
Proof.
  induction labels as [|x labels IH]; intros Hall; [done|].
  cbn [month_keys]. rewrite IH by (intros l Hl; apply Hall; by right).
  rewrite fmap_cons. unfold strict_date at 2.
  destruct (Strptime.cell x) eqn:E; [done|].
  by destruct (Hall x (list_elem_of_here _ _)).
Qed.

Lemma strptime_column_cases (c : list label) :
  (Strptime.column c = None /\ exists bad, bad ∈ c /\ Strptime.cell bad = None)
  \/ (Strptime.column c = Some (strict_date <$> c)
      /\ forall l, l ∈ c -> Strptime.cell l <> None).
Proof.
  destruct (decide (Forall (fun l => Strptime.cell l <> None) c)) as [Hall|Hex].
  - right. rewrite Forall_forall in Hall. split; [|done].
    by apply strptime_column_Some.
  - left. apply not_Forall_Exists in Hex; [|apply _].
    apply Exists_exists in Hex as (bad & Hin & Hbad).
    assert (Hb : Strptime.cell bad = None).
    { destruct (Strptime.cell bad) eqn:Eb; [|done].
      exfalso. apply Hbad. congruence. }
    split; [by apply (strptime_column_None c bad)|]. by exists bad.
Qed.

(** X5. The permissive fallback of the loader and the month selector exclude
    each other: on a loaded table line 67 raises [ValueError] exactly when
    [load_data] had to fall back to the permissive parse; when the strict
    parse succeeded, line 67 computes the strict date of every distinct
    label. *)
Theorem fallback_iff_month_selector_raises (filepath : string) (f : source)
    (fr : frame) :
  source_of' filepath = ReadOk f ->
  load' filepath = Done fr ->
  (sorted_months_keys (rows fr) = Raise ValueError
   <-> Strptime.column (Month2 <$> src_rows f) = None)
  /\ (Strptime.column (Month2 <$> src_rows f) <> None ->
      sorted_months_keys (rows fr)
      = Done (strict_date <$> unique (col Month2 (rows fr)))).
Proof.
  intros Hread Hload. unfold sorted_months_keys.
  rewrite (load_data_col_Month2 filepath fr f Hread Hload).
  destruct (strptime_column_cases (Month2 <$> src_rows f))
    as [[Hnone (bad & Hin & Hbad)]|[Hsome Hall]].
  - rewrite Hnone. split; [|done]. split; [done|]. intros _.
    apply (month_keys_ValueError _ bad); [by apply elem_of_unique | done].
  - rewrite Hsome.
    assert (Hk : month_keys (unique (Month2 <$> src_rows f))
                 = Done (strict_date <$> unique (Month2 <$> src_rows f))).
    { apply month_keys_Done. intros l Hl. apply Hall. by apply elem_of_unique. }
    rewrite Hk. done.
Qed.

(** X6. Without an [ASP] column in the source, the selling price of a loaded
    record with amount [a] and units sold [u] is the quotient: times [u] it
    gives [a] back when [u] is not zero; on zero units it is an infinity with
    the sign of the amount, or NaN for a zero amount. With an [ASP] column
    the source's cell is kept and nothing is derived. *)
Theorem load_data_asp (filepath : string) (fr : frame) (f : source) (r : row) :
  source_of' filepath = ReadOk f ->
  load' filepath = Done fr ->
  r ∈ rows fr ->
  ("ASP" ∈ src_columns f -> ASP r = of_num (ASP_src r))
  /\ ("ASP" ∉ src_columns f ->
      forall a u, Amount r = Some a -> Unit_Sold r = Some u ->
        (u <> 0 -> exists q, ASP r = Fin q /\ q * u = a)
        /\ (u = 0 -> 0 < a -> ASP r = PInf)
        /\ (u = 0 -> a < 0 -> ASP r = NInf)
        /\ (u = 0 -> a = 0 -> ASP r = NaN)).
Proof.
  intros Hread Hload Hr.
  destruct (load_data_Done_inv filepath fr Hload) as (f' & Hread' & _ & Hrows).
  rewrite Hread in Hread'. injection Hread' as <-.
  rewrite Hrows in Hr. apply list_elem_of_fmap in Hr as (x & -> & _).
  unfold load_row. cbn [ASP src]. split.
  - intros Hasp. by rewrite (bool_decide_eq_true_2 _ Hasp).
  - intros Hasp a u Ha Hu. rewrite (bool_decide_eq_false_2 _ Hasp).
    unfold truediv. rewrite Ha, Hu. repeat split.
    + intros Hne. rewrite decide_False by done. eexists. split; [done|].
      by field.
    + intros -> Hpos. rewrite decide_True by done.
      assert (E : (a ?= 0) = Gt) by by apply Qcgt_alt.
      by rewrite E.
    + intros -> Hneg. rewrite decide_True by done.
      assert (E : (a ?= 0) = Lt) by by apply Qclt_alt.
      by rewrite E.
    + intros -> ->. by rewrite decide_True.
Qed.
End LoaderMore.

Lemma zone_agg_one_marker_hollow :
  length (zone_agg (df_filtered (rows hollow_frame) select_all))
  = distinct_count (col Zone (df_filtered (rows hollow_frame) select_all))
  /\ (forall z la lo sums,
        (z, la, lo, sums) ∈ zone_agg (df_filtered (rows hollow_frame) select_all) ->
        Some z ∈ col Zone (df_filtered (rows hollow_frame) select_all)
        /\ la = lat (zone_anchor (Some z)) /\ lo = lon (zone_anchor (Some z))).
Proof.
  assert (Hload : sample_load hollow_source "sales.csv" = Done hollow_frame)
    by (by vm_compute).
  exact (zone_agg_one_marker_per_zone _ _ _ "sales.csv" hollow_frame
           select_all Hload).
Defined.

Lemma load_data_monthless :
  sample_load monthless_source "sales.csv" = Raise (KeyError "Month2")
  /\ exists f c, ReadOk monthless_source = ReadOk f
       /\ KeyError "Month2" = KeyError c /\ c ∈ read_columns
       /\ c ∉ src_columns f.
Proof.
  assert (Hload : sample_load monthless_source "sales.csv"
                  = Raise (KeyError "Month2")) by (by vm_compute).
  split; [exact Hload|].
  exact (load_data_raises_only_KeyError _ _ _ "sales.csv"
           (KeyError "Month2") Hload).
Defined.

Lemma load_data_empty_sample :
  exists fr, sample_load empty_source "sales.csv" = Done fr
    /\ rows fr = []
    /\ sorted_months_keys (rows fr) = Done []
    /\ forall s, dashboard (rows fr) s = Stop no_data.
Proof.
  exact (load_data_empty_source (fun _ => ReadOk empty_source)
           (fun _ => FileNotFound) knows_no_format "sales.csv" empty_source
           eq_refl eq_refl eq_refl).
Defined.

Lemma garbage_frame_stops_at_month_selector :
  sorted_months_keys (rows garbage_frame) = Raise ValueError
  /\ Strptime.column (Month2 <$> src_rows garbage_source) = None.
Proof.
  assert (Hload : sample_load garbage_source "sales.csv" = Done garbage_frame)
    by (by vm_compute).
  destruct (fallback_iff_month_selector_raises (fun _ => ReadOk garbage_source)
              (fun _ => FileNotFound) knows_no_format "sales.csv"
              garbage_source garbage_frame eq_refl Hload) as [Hiff _].
  split; [|reflexivity]. apply Hiff. reflexivity.
Defined.

Lemma load_data_asp_hollow :
  hollow_first ∈ rows hollow_frame
  /\ ("ASP" ∈ src_columns hollow_source ->
      ASP hollow_first = of_num (ASP_src hollow_first))
  /\ ("ASP" ∉ src_columns hollow_source ->
      forall a u, Amount hollow_first = Some a -> Unit_Sold hollow_first = Some u ->
        (u <> 0 -> exists q, ASP hollow_first = Fin q /\ q * u = a)
        /\ (u = 0 -> 0 < a -> ASP hollow_first = PInf)
        /\ (u = 0 -> a < 0 -> ASP hollow_first = NInf)
        /\ (u = 0 -> a = 0 -> ASP hollow_first = NaN)).
Proof.
  assert (Hload : sample_load hollow_source "sales.csv" = Done hollow_frame)
    by (by vm_compute).
  assert (Hr : hollow_first ∈ rows hollow_frame) by by_computation.
  split; [exact Hr|].
  exact (load_data_asp (fun _ => ReadOk hollow_source) (fun _ => FileNotFound)
           knows_no_format "sales.csv" hollow_frame hollow_source hollow_first
           eq_refl Hload Hr).
Defined.

(** ** Selections *)

Lemma effective_cons (sel c : list label) : sel <> [] -> effective sel c = sel.
Proof. by destruct sel. Qed.

Lemma elem_of_effective_nil (proj : source_row -> label) (df : list row)
    (r : row) :
  r ∈ df -> proj r ∈ effective [] (col proj df).
Proof. apply effective_covers. Qed.

Lemma covers_effective (proj : source_row -> label) (sel : list label)
    (df : list row) (r : row) :
  sel = [] \/ covers sel (col proj df) ->
  r ∈ df -> proj r ∈ effective sel (col proj df).
Proof.
  intros [->|Hc] Hr; [by apply effective_covers|].
  assert (Hin : proj r ∈ col proj df).
  { unfold col. apply list_elem_of_fmap. by exists r. }
  destruct sel as [|v sel]; [by apply effective_covers|].
  by apply Hc.
Qed.

(** X7. A selection that, in each dimension, is empty or leaves no value of
    the table out keeps the whole table: the widgets' initial state, with
    every option selected, shows the same records as three cleared widgets. *)
Theorem covering_selection_keeps_table (df : list row) (s : selection) :
  sel_month s = [] \/ covers (sel_month s) (col Month2 df) ->
  sel_zone s = [] \/ covers (sel_zone s) (col Zone df) ->
  sel_cat s = [] \/ covers (sel_cat s) (col Category df) ->
  df_filtered df s = df
  /\ df_filtered df s = df_filtered df (Selection [] [] []).
Proof.
  intros Hm Hz Hc.
  assert (Hall : forall s', (sel_month s' = [] \/ covers (sel_month s') (col Month2 df)) ->
                 (sel_zone s' = [] \/ covers (sel_zone s') (col Zone df)) ->
                 (sel_cat s' = [] \/ covers (sel_cat s') (col Category df)) ->
                 df_filtered df s' = df).
  { intros s' Hm' Hz' Hc'. rewrite df_filtered_filter. apply filter_all.
    intros r Hr. unfold accepts, eff_months, eff_zones, eff_cats.
    repeat split; by apply covers_effective. }
  rewrite (Hall s Hm Hz Hc). split; [done|].
  symmetry. apply Hall; by left.
Qed.

Lemma effective_narrows (proj : source_row -> label) (sel sel' : list label)
    (df : list row) (r : row) :
  narrows sel sel' -> r ∈ df ->
  proj r ∈ effective sel (col proj df) ->
  proj r ∈ effective sel' (col proj df).
Proof.
  intros Hn Hr Hin. destruct Hn as [->|[Hne Hn]]; [done|].
  destruct Hn as [->|Hsub]; [by apply effective_covers|].
  rewrite effective_cons in Hin by done.
  assert (Hin' := Hsub _ Hin).
  rewrite effective_cons; [done|]. intros E. rewrite E in Hin'.
  by inversion Hin'.
Qed.

Lemma accepts_narrows (df : list row) (s s' : selection) (r : row) :
  narrows (sel_month s) (sel_month s') ->
  narrows (sel_zone s) (sel_zone s') ->
  narrows (sel_cat s) (sel_cat s') ->
  r ∈ df -> accepts df s r -> accepts df s' r.
Proof.
  intros Hm Hz Hc Hr (Am & Az & Ac).
  unfold accepts, eff_months, eff_zones, eff_cats in *.
  split; [|split].
  - by apply (effective_narrows Month2 _ _ df r Hm Hr).
  - by apply (effective_narrows Zone _ _ df r Hz Hr).
  - by apply (effective_narrows Category _ _ df r Hc Hr).
Qed.

Lemma effective_on_subtable (proj : source_row -> label) (sel : list label)
    (df d : list row) (r : row) :
  r ∈ d -> r ∈ df ->
  proj r ∈ effective sel (col proj d) <-> proj r ∈ effective sel (col proj df).
Proof.
  intros Hd Hdf. destruct sel as [|v sel]; [|done].
  split; intros _; by apply effective_covers.
Qed.

(** X8. Making the selection stricter only removes records, and it does not
    matter whether the stricter selection is applied to the table or to the
    table already filtered by the wider one. *)
Theorem narrowing_selection_drills_down (df : list row) (s s' : selection) :
  narrows (sel_month s) (sel_month s') ->
  narrows (sel_zone s) (sel_zone s') ->
  narrows (sel_cat s) (sel_cat s') ->
  sublist (df_filtered df s) (df_filtered df s')
  /\ df_filtered (df_filtered df s') s = df_filtered df s.
Proof.
  intros Hm Hz Hc.
  assert (Hdrill : df_filtered (df_filtered df s') s = df_filtered df s).
  { rewrite (df_filtered_filter (df_filtered df s')).
    rewrite (df_filtered_filter df s'), list_filter_filter.
    rewrite (df_filtered_filter df s). apply filter_iff_elem. intros r Hr.
    split.
    - intros [(Am & Az & Ac) Hs'].
      assert (Hd : r ∈ filter (accepts df s') df)
        by by apply list_elem_of_filter.
      unfold accepts, eff_months, eff_zones, eff_cats in *.
      repeat split; by eapply effective_on_subtable.
    - intros Ha. assert (Hs' := accepts_narrows df s s' r Hm Hz Hc Hr Ha).
      split; [|done].
      assert (Hd : r ∈ filter (accepts df s') df)
        by by apply list_elem_of_filter.
      destruct Ha as (Am & Az & Ac).
      unfold accepts, eff_months, eff_zones, eff_cats in *.
      repeat split; by apply (effective_on_subtable _ _ df). }
  split; [|exact Hdrill].
  rewrite <- Hdrill, (df_filtered_filter (df_filtered df s')).
  apply sublist_filter.
Qed.

(** X9. The revenue and the volume of two zone selections that share no zone
    add up to those of the joined selection, the other two dimensions being
    the same. *)
Theorem disjoint_zone_selections_add (df : list row) (m z1 z2 c : list label) :
  z1 <> [] -> z2 <> [] ->
  (forall v, v ∈ z1 -> v ∈ z2 -> False) ->
  kpi_rev (df_filtered df (Selection m z1 c))
  + kpi_rev (df_filtered df (Selection m z2 c))
  = kpi_rev (df_filtered df (Selection m (z1 ++ z2) c))
  /\ kpi_vol (df_filtered df (Selection m z1 c))
     + kpi_vol (df_filtered df (Selection m z2 c))
     = kpi_vol (df_filtered df (Selection m (z1 ++ z2) c)).
Proof.
  intros H1 H2 Hdisj. rewrite !df_filtered_filter.
  assert (H12 : z1 ++ z2 <> []) by (by destruct z1).
  assert (Hor : forall r, accepts df (Selection m (z1 ++ z2) c) r
                <-> accepts df (Selection m z1 c) r
                    \/ accepts df (Selection m z2 c) r).
  { intros r. unfold accepts, eff_months, eff_zones, eff_cats.
    cbn [sel_month sel_zone sel_cat].
    rewrite (effective_cons (z1 ++ z2)), (effective_cons z1),
      (effective_cons z2) by done.
    rewrite elem_of_app. tauto. }
  assert (Hno : forall r, accepts df (Selection m z1 c) r ->
                accepts df (Selection m z2 c) r -> False).
  { intros r (_ & Hz1 & _) (_ & Hz2 & _).
    unfold eff_zones in Hz1, Hz2. cbn [sel_zone] in Hz1, Hz2.
    rewrite effective_cons in Hz1 by done.
    rewrite effective_cons in Hz2 by done. by eapply Hdisj. }
  split; apply sum_of_filter_split; done.
Qed.

Lemma covering_selection_three_sales :
  df_filtered three_sales (all_selected three_sales) = three_sales
  /\ df_filtered three_sales (all_selected three_sales)
     = df_filtered three_sales (Selection [] [] []).
Proof.
  apply covering_selection_keeps_table; right; unfold covers;
    apply Forall_forall; apply (bool_decide_unpack _); by vm_compute.
Defined.

Lemma narrowing_to_south :
  sublist (df_filtered three_sales (Selection [] [Some "South"%string] []))
          (df_filtered three_sales select_all)
  /\ df_filtered (df_filtered three_sales select_all)
       (Selection [] [Some "South"%string] [])
     = df_filtered three_sales (Selection [] [Some "South"%string] []).
Proof.
  apply narrowing_selection_drills_down; cbn [sel_month sel_zone sel_cat select_all].
  - by left.
  - right. split; [done|]. by left.
  - by left.
Defined.

Lemma north_and_south_add :
  kpi_rev (df_filtered three_sales (Selection [] [Some "North"%string] []))
  + kpi_rev (df_filtered three_sales (Selection [] [Some "South"%string] []))
  = kpi_rev (df_filtered three_sales
               (Selection [] ([Some "North"%string] ++ [Some "South"%string]) []))
  /\ kpi_vol (df_filtered three_sales (Selection [] [Some "North"%string] []))
     + kpi_vol (df_filtered three_sales (Selection [] [Some "South"%string] []))
     = kpi_vol (df_filtered three_sales
                  (Selection [] ([Some "North"%string] ++ [Some "South"%string]) [])).
Proof.
  apply disjoint_zone_selections_add; [done|done|].
  intros v Hn Hs. apply list_elem_of_singleton in Hn, Hs. congruence.
Defined.

(** ** Averages with a zero divisor *)

Lemma foldr_fadd_PInf (vs : list fval) :
  PInf ∈ vs -> NInf ∉ vs -> NaN ∉ vs -> foldr fadd (Fin 0) vs = PInf.
Proof.
  assert (Hfin : forall l : list fval, PInf ∉ l -> NInf ∉ l -> NaN ∉ l ->
                 exists q, foldr fadd (Fin 0) l = Fin q).
  { induction l as [|v l IH]; intros Hp Hn Hna; [by eexists|].
    rewrite not_elem_of_cons in Hp, Hn, Hna.
    destruct (IH (proj2 Hp) (proj2 Hn) (proj2 Hna)) as [q Eq].
    cbn [foldr]. rewrite Eq.
    destruct v; [by eexists | by destruct Hp | by destruct Hn | by destruct Hna]. }
  induction vs as [|v vs IH]; intros Hp Hn Hna; [by inversion Hp|].
  rewrite not_elem_of_cons in Hn, Hna. cbn [foldr].
  destruct (decide (PInf ∈ vs)) as [Hin|Hout].
  - rewrite (IH Hin (proj2 Hn) (proj2 Hna)).
    destruct v; [done | done | by destruct Hn | by destruct Hna].
  - destruct (Hfin vs Hout (proj2 Hn) (proj2 Hna)) as [q Eq]. rewrite Eq.
    apply elem_of_cons in Hp as [<-|Hp]; [done | contradiction].
Qed.

Lemma elem_of_values_of (c : list fval) (v : fval) :
  v ∈ values_of c <-> v ∈ c /\ v <> NaN.
Proof.
  unfold values_of. induction c as [|x c IH]; cbn [List.filter].
  - split; [intros Hin | intros [Hin _]]; by inversion Hin.
  - destruct x; cbn [isna negb]; rewrite ?elem_of_cons, IH;
      intuition congruence.
Qed.

(** X10. One record sold for a positive amount with zero units makes the
    average selling price of the whole table infinite, whatever the other
    records are, unless a record with a negative amount and zero units is in
    the table too. *)
Theorem kpi_asp_infinite (df : list row) :
  (exists r : row, r ∈ df /\ ASP r = PInf) ->
  (forall r : row, r ∈ df -> ASP r <> NInf) ->
  kpi_asp df = PInf.
Proof.
  intros (r & Hr & Er) Hn. unfold kpi_asp. rewrite nanmean_float_mean.
  assert (Hp : PInf ∈ values_of (ASP <$> df)).
  { apply elem_of_values_of. split; [|done]. rewrite <- Er.
    by apply list_elem_of_fmap_2. }
  unfold float_mean. rewrite foldr_fadd_PInf.
  - destruct (values_of (ASP <$> df)); [by inversion Hp | done].
  - exact Hp.
  - rewrite elem_of_values_of. intros [Hin _].
    apply list_elem_of_fmap in Hin as (x & Ex & Hx). by apply (Hn x Hx).
  - rewrite elem_of_values_of. by intros [_ Hna].
Qed.

Lemma kpi_asp_free_gift :
  (exists r : row, r ∈ free_gift /\ ASP r = PInf)
  /\ (forall r : row, r ∈ free_gift -> ASP r <> NInf)
  /\ kpi_asp free_gift = PInf.
Proof.
  assert (Hp : exists r : row, r ∈ free_gift /\ ASP r = PInf).
  { apply Exists_exists. apply (bool_decide_unpack _). by vm_compute. }
  assert (Hn : forall r : row, r ∈ free_gift -> ASP r <> NInf).
  { apply Forall_forall. apply (bool_decide_unpack _). by vm_compute. }
  split; [exact Hp|]. split; [exact Hn|]. exact (kpi_asp_infinite free_gift Hp Hn).
Defined.

(** ** The revenue trajectory *)

Lemma ts_le_spec (a b : timestamp) :
  ts_le a b = true <->
  (year a < year b
   \/ (year a = year b
       /\ (month a < month b
           \/ (month a = month b
               /\ (day a < day b \/ (day a = day b /\ time a <= time b))))))%Z.
Proof.
  destruct a as [ya ma da ta], b as [yb mb db tb]. unfold ts_le.
  cbn [year month day time].
  destruct (Z.compare_spec ya yb); destruct (Z.compare_spec ma mb);
    destruct (Z.compare_spec da db); rewrite ?Z.leb_le;
    split; intros Hx; try done; try lia; exfalso; lia.
Qed.

Lemma ts_le_total (a b : timestamp) : ts_le a b = true \/ ts_le b a = true.
Proof. rewrite !ts_le_spec. lia. Qed.

Lemma ts_le_trans (a b c : timestamp) :
  ts_le a b = true -> ts_le b c = true -> ts_le a c = true.
Proof. rewrite !ts_le_spec. lia. Qed.

Lemma ts_le_antisym (a b : timestamp) :
  ts_le a b = true -> ts_le b a = true -> a = b.
Proof.
  rewrite !ts_le_spec. destruct a, b. cbn [year month day time].
  intros Hab Hba. f_equal; lia.
Qed.

(** Sorting a sorted list changes nothing. *)
Lemma stable_sort_sorted_id {A} (le : A -> A -> bool) (l : list A) :
  StronglySorted (fun a b => le a b = true) l -> stable_sort le l = l.
Proof.
  induction 1 as [|x l Hs IH Hall]; [done|]. cbn [stable_sort]. rewrite IH.
  destruct Hall as [|y l' Hxy _]; [done|]. cbn [insert_sorted]. by rewrite Hxy.
Qed.

Lemma StronglySorted_on_fst {K V} (R : K -> K -> Prop) (l : list (K * V)) :
  StronglySorted R (fst <$> l) -> StronglySorted (fun a b => R a.1 b.1) l.
Proof.
  induction l as [|x l IH]; [constructor|]. rewrite fmap_cons.
  intros Hs. apply StronglySorted_inv in Hs as [Hs Hall].
  constructor; [by apply IH|]. rewrite Forall_fmap in Hall.
  eapply Forall_impl; [exact Hall|]. by intros y Hy.
Qed.

Lemma StronglySorted_NoDup_strict {A} (R : A -> A -> Prop) (l : list A) :
  StronglySorted R l -> NoDup l ->
  StronglySorted (fun a b => R a b /\ a <> b) l.
Proof.
  induction 1 as [|x l Hs IH Hall]; intros Hnd; [constructor|].
  apply NoDup_cons in Hnd as [Hx Hnd]. constructor; [by apply IH|].
  apply Forall_forall. intros y Hy. rewrite Forall_forall in Hall.
  split; [by apply Hall|]. by intros ->.
Qed.

(** X11. The revenue trajectory has one point for each distinct date of the
    filtered table, in strictly ascending order of the dates; each point
    carries the summed amount of the records of its date; the amounts add up
    to the revenue of the records that have a date; and the [sort_values]
    after the grouping changes nothing. *)
Theorem trend_df_chronological (df : list row) :
  StronglySorted earlier (fst <$> trend_df df)
  /\ (forall t v, (t, v) ∈ trend_df df <->
        (exists r : row, r ∈ df /\ Date r = Some t)
        /\ v = sum_of Amount (filter (fun r : row => Date r = Some t) df))
  /\ total (snd <$> trend_df df)
     = kpi_rev (filter (fun r : row => is_Some (Date r)) df)
  /\ trend_df df = groupby ts_le Date (sum_of Amount) df.
Proof.
  destruct (groupby_keys_sorted ts_le Date (sum_of Amount) df
              ts_le_total ts_le_trans) as [Hsorted Hnd].
  assert (Hid : trend_df df = groupby ts_le Date (sum_of Amount) df).
  { unfold trend_df. apply stable_sort_sorted_id.
    by apply (StronglySorted_on_fst (fun a b => ts_le a b = true)). }
  rewrite Hid. split; [|split; [|split; [|done]]].
  - by apply StronglySorted_NoDup_strict.
  - intros t v. apply elem_of_groupby.
  - by rewrite groupby_sum_total.
Qed.

(** ** The other leaderboards *)

Section TakeSorted.
Context {A : Type} (le : A -> A -> bool).
Implicit Types l : list A.

Lemma take_sorted_elem n l x : x ∈ take n (stable_sort le l) -> x ∈ l.
Proof.
  intros Hx. rewrite <- (stable_sort_Permutation le l).
  eapply elem_of_sublist; [exact Hx|]. apply sublist_take.
Qed.

Lemma take_sorted_all n l :
  (length l <= n)%nat -> take n (stable_sort le l) ≡ₚ l.
Proof.
  intros Hn. rewrite take_ge by by rewrite length_stable_sort.
  apply stable_sort_Permutation.
Qed.

Lemma take_sorted_ties n l (p : A -> bool) :
  (forall x y, p x = true -> p y = true -> le x y = true) ->
  List.filter p (take n (stable_sort le l)) `prefix_of` List.filter p l.
Proof.
  intros Htie. rewrite <- (stable_sort_stable le p l Htie).
  rewrite <- (take_drop n (stable_sort le l)) at 2.
  rewrite List.filter_app. by eexists.
Qed.

Hypothesis le_total : forall x y, le x y = true \/ le y x = true.
Hypothesis le_trans : forall x y z,
  le x y = true -> le y z = true -> le x z = true.

Lemma take_sorted_StronglySorted n l :
  StronglySorted (fun a b => le a b = true) (take n (stable_sort le l)).
Proof.
  pose proof (stable_sort_StronglySorted le le_total le_trans l) as Hs.
  rewrite <- (take_drop n (stable_sort le l)) in Hs.
  by apply StronglySorted_app_1_l in Hs.
Qed.

Lemma take_sorted_best n l a b :
  a ∈ take n (stable_sort le l) -> b ∈ l ->
  b ∉ take n (stable_sort le l) -> le a b = true.
Proof.
  intros Ha Hb Hnb. rewrite <- (stable_sort_Permutation le l) in Hb.
  pose proof (stable_sort_StronglySorted le le_total le_trans l) as Hs.
  rewrite <- (take_drop n (stable_sort le l)) in Hs, Hb.
  apply elem_of_app in Hb as [Hb|Hb]; [done|].
  by apply (StronglySorted_app_1_elem_of _ _ _ a b Hs).
Qed.
End TakeSorted.

Lemma asc_total {K} (a b : K * Qc) : asc a b = true \/ asc b a = true.
Proof. apply Qc_leb_total. Qed.

Lemma asc_trans {K} (a b c : K * Qc) :
  asc a b = true -> asc b c = true -> asc a c = true.
Proof. apply Qc_leb_trans. Qed.

Lemma asc_le {K} (a b : K * Qc) : asc a b = true <-> a.2 <= b.2.
Proof. unfold asc, Qc_leb. apply bool_decide_eq_true. Qed.

Lemma StronglySorted_impl {A} (R1 R2 : A -> A -> Prop) (l : list A) :
  (forall x y, R1 x y -> R2 x y) -> StronglySorted R1 l -> StronglySorted R2 l.
Proof.
  intros Himp. induction 1 as [|x l Hs IH Hall]; constructor; [done|].
  eapply Forall_impl; [exact Hall|]. intros y. apply Himp.
Qed.

(** X12. The bottom-10 store leaderboard lists stores with their summed
    amounts in ascending order, equal sums allowed next to each other; it has
    at most 10 rows and at most as many as the filtered table has distinct
    store names; every store left out has a sum no smaller than any store
    listed; stores with equal sums keep the order of the grouped series. *)
Theorem bottom_stores_leaderboard (df : list row) :
  StronglySorted (fun a b => a.2 <= b.2) (bottom_stores df)
  /\ (length (bottom_stores df) <= 10)%nat
  /\ (length (bottom_stores df) <= distinct_count (col Store_Name df))%nat
  /\ (forall store v, (store, v) ∈ bottom_stores df ->
        Some store ∈ col Store_Name df
        /\ v = sum_of Amount (filter (fun r : row => Store_Name r = Some store) df))
  /\ (forall a b, a ∈ bottom_stores df -> b ∈ store_totals df ->
        b ∉ bottom_stores df -> a.2 <= b.2)
  /\ (forall v, with_total v (bottom_stores df)
                `prefix_of` with_total v (store_totals df)).
Proof.
  unfold bottom_stores, nsmallest. fold (@asc string).
  split; [|split; [|split; [|split; [|split]]]].
  - eapply StronglySorted_impl; [|apply take_sorted_StronglySorted].
    + intros a b. apply asc_le.
    + apply asc_total.
    + apply asc_trans.
  - rewrite length_take. lia.
  - rewrite <- length_store_totals, length_take, length_stable_sort. lia.
  - intros store v Hin.
    apply take_sorted_elem, elem_of_groupby in Hin as [(r & Hr & E) ->].
    split; [|done]. unfold col. apply list_elem_of_fmap. by exists r.
  - intros a b Ha Hb Hnb. apply asc_le.
    by apply (take_sorted_best asc asc_total asc_trans 10 (store_totals df)).
  - intros v. apply take_sorted_ties. intros x y Hx Hy.
    apply bool_decide_eq_true in Hx, Hy. apply asc_le.
    rewrite Hx, Hy. apply Qcle_refl.
Qed.

Lemma kpi_stores_store_totals (df : list row) :
  kpi_stores df = length (store_totals df).
Proof.
  unfold kpi_stores. by rewrite nunique_distinct_count, length_store_totals.
Qed.

(** X13. The number of rows of the top-10 board is the outlet count, capped
    at 10. With ten outlets or fewer, the top and the bottom board both list
    every store of the filtered table: each store is on both boards. *)
Theorem few_stores_on_both_boards (df : list row) :
  length (top_stores df) = Nat.min 10 (kpi_stores df)
  /\ ((kpi_stores df <= 10)%nat ->
      top_stores df ≡ₚ store_totals df
      /\ bottom_stores df ≡ₚ store_totals df
      /\ forall g, g ∈ top_stores df <-> g ∈ bottom_stores df).
Proof.
  rewrite kpi_stores_store_totals. split.
  - unfold top_stores, nlargest. by rewrite length_take, length_stable_sort.
  - intros Hle.
    assert (Ht : top_stores df ≡ₚ store_totals df)
      by by apply take_sorted_all.
    assert (Hb : bottom_stores df ≡ₚ store_totals df)
      by by apply take_sorted_all.
    split; [done|]. split; [done|]. intros g. by rewrite Ht, Hb.
Qed.

(** X14. The top-10 product board lists SKUs with their summed units sold in
    descending order, equal sums allowed next to each other; it has at most
    10 rows and at most as many as the filtered table has distinct SKUs; a
    SKU left out has sold no more units than any SKU listed. *)
Theorem top_sku_leaderboard (df : list row) :
  top_sku df = nlargest 10 (sku_totals df)
  /\ StronglySorted (fun a b => b.2 <= a.2) (top_sku df)
  /\ (length (top_sku df) <= 10)%nat
  /\ (length (top_sku df) <= distinct_count (col SKU_Placed df))%nat
  /\ (forall sku v, (sku, v) ∈ top_sku df ->
        Some sku ∈ col SKU_Placed df
        /\ v = sum_of Unit_Sold (filter (fun r : row => SKU_Placed r = Some sku) df))
  /\ (forall a b, a ∈ top_sku df -> b ∈ sku_totals df ->
        b ∉ top_sku df -> b.2 <= a.2).
Proof.
  split; [done|]. unfold top_sku. fold (sku_totals df).
  split; [apply nlargest_sorted|]. split; [apply length_nlargest|].
  split; [|split].
  - etrans; [apply length_nlargest|]. unfold sku_totals.
    rewrite length_groupby, <- nunique_distinct_count. done.
  - intros sku v Hin.
    apply nlargest_sublist, elem_of_groupby in Hin as [(r & Hr & E) ->].
    split; [|done]. unfold col. apply list_elem_of_fmap. by exists r.
  - intros a b. apply nlargest_top.
Qed.

(** X15. The summed amounts of the grouped store series add up to the
    revenue of the records that name a store, and the summed units of the
    grouped SKU series to the volume of the records that name a SKU: a record
    with an empty store or SKU cell counts in the KPI and on no board. *)
Theorem board_totals (df : list row) :
  total (snd <$> store_totals df)
  = kpi_rev (filter (fun r : row => is_Some (Store_Name r)) df)
  /\ total (snd <$> sku_totals df)
     = kpi_vol (filter (fun r : row => is_Some (SKU_Placed r)) df).
Proof.
  unfold store_totals, sku_totals. by rewrite !groupby_sum_total.
Qed.

Lemma few_stores_tied :
  (kpi_stores tied_stores <= 10)%nat
  /\ top_stores tied_stores ≡ₚ store_totals tied_stores
  /\ bottom_stores tied_stores ≡ₚ store_totals tied_stores
  /\ forall g, g ∈ top_stores tied_stores <-> g ∈ bottom_stores tied_stores.
Proof.
  assert (Hle : (kpi_stores tied_stores <= 10)%nat) by (vm_compute; lia).
  split; [exact Hle|]. exact (proj2 (few_stores_on_both_boards tied_stores) Hle).
Defined.

(** ** The zone ranking *)

Lemma total_Permutation (a b : list Qc) : a ≡ₚ b -> total a = total b.
Proof.
  unfold total. induction 1 as [|x a b Hp IH|x y a|a b c Hab IHab Hbc IHbc];
    cbn [foldr]; [done | by rewrite IH | ring | congruence].
Qed.

(** X16. Whatever order the sort gives to zones with equal revenue, the zone
    ranking lists each zone of the filtered table once, with the summed
    amount of its records, in descending order of the sums; no row has a
    larger sum than the first; and the sums add up to the revenue of the
    records that have a zone. *)
Theorem top_zone_ranking
    (sort_values_desc : list (string * Qc) -> list (string * Qc))
    (df : list row) :
  (forall s, sort_values_desc s ≡ₚ s) ->
  (forall s, StronglySorted (fun a b => b.2 <= a.2) (sort_values_desc s)) ->
  NoDup (fst <$> top_zone sort_values_desc df)
  /\ length (top_zone sort_values_desc df) = distinct_count (col Zone df)
  /\ (forall z v, (z, v) ∈ top_zone sort_values_desc df <->
        (exists r : row, r ∈ df /\ Zone r = Some z)
        /\ v = sum_of Amount (filter (fun r : row => Zone r = Some z) df))
  /\ (forall first rest g, top_zone sort_values_desc df = first :: rest ->
        g ∈ rest -> g.2 <= first.2)
  /\ total (snd <$> top_zone sort_values_desc df)
     = kpi_rev (filter (fun r : row => is_Some (Zone r)) df).
Proof.
  intros Hperm Hsorted. unfold top_zone.
  split; [|split; [|split; [|split]]].
  - rewrite (Hperm (zone_totals df)). unfold zone_totals.
    rewrite groupby_keys. apply NoDup_group_keys.
  - rewrite (Hperm (zone_totals df)). unfold zone_totals.
    by rewrite length_groupby, <- nunique_distinct_count.
  - intros z v. rewrite (Hperm (zone_totals df)). apply elem_of_groupby.
  - intros first rest g E Hg. pose proof (Hsorted (zone_totals df)) as Hs.
    rewrite E in Hs. apply StronglySorted_inv in Hs as [_ Hall].
    rewrite Forall_forall in Hall. by apply Hall.
  - rewrite (total_Permutation _ (snd <$> zone_totals df))
      by (by rewrite (Hperm (zone_totals df))).
    unfold zone_totals. by rewrite groupby_sum_total.
Qed.

Lemma desc_total {K} (a b : K * Qc) : desc a b = true \/ desc b a = true.
Proof. apply Qc_leb_total. Qed.

Lemma desc_trans {K} (a b c : K * Qc) :
  desc a b = true -> desc b c = true -> desc a c = true.
Proof. unfold desc. intros Hab Hbc. by eapply Qc_leb_trans. Qed.

Lemma stable_sort_desc_sorted {K} (s : list (K * Qc)) :
  StronglySorted (fun a b => b.2 <= a.2) (stable_sort desc s).
Proof.
  eapply StronglySorted_impl;
    [|apply (stable_sort_StronglySorted desc desc_total desc_trans)].
  intros a b. unfold desc, Qc_leb. apply bool_decide_eq_true.
Qed.

Lemma top_zone_three_sales :
  NoDup (fst <$> top_zone (stable_sort desc) three_sales)
  /\ length (top_zone (stable_sort desc) three_sales)
     = distinct_count (col Zone three_sales)
  /\ total (snd <$> top_zone (stable_sort desc) three_sales)
     = kpi_rev (filter (fun r : row => is_Some (Zone r)) three_sales).
Proof.
  destruct (top_zone_ranking (stable_sort desc) three_sales
              (stable_sort_Permutation desc) stable_sort_desc_sorted)
    as (Hnd & Hlen & _ & _ & Hsum).
  exact (conj Hnd (conj Hlen Hsum)).
Defined.

(** X17. On a loaded table the zone map and the zone ranking show the same
    revenue for every zone: a zone has the sum [v] in the grouped series of
    the ranking exactly when the map has a marker for the zone, at the zone's
    anchor, with the amount [v]. *)
Theorem zone_views_agree (d : list row) (z : string) (v : Qc) :
  anchored d ->
  (z, v) ∈ zone_totals d <->
  exists u, (z, lat (zone_anchor (Some z)), lon (zone_anchor (Some z)), (v, u))
            ∈ zone_agg d.
Proof.
  intros Ha.
  assert (Hf : filter (fun r : row =>
                 match Zone r with
                 | Some z' => Some (z', Lat r, Lon r)
                 | None => None
                 end = Some (z, lat (zone_anchor (Some z)),
                             lon (zone_anchor (Some z)))) d
               = filter (fun r : row => Zone r = Some z) d).
  { apply filter_iff_elem. intros r Hr. destruct (Ha r Hr) as [Hlat Hlon].
    destruct (Zone r) as [z'|] eqn:Ez; [|done]. rewrite Hlat, Hlon. split.
    - by intros [= ->].
    - by intros [= ->]. }
  unfold zone_totals, zone_agg. rewrite elem_of_groupby. split.
  - intros [(r & Hr & Ez) ->].
    exists (sum_of Unit_Sold (filter (fun r : row => Zone r = Some z) d)).
    apply elem_of_groupby. split.
    + exists r. split; [done|]. destruct (Ha r Hr) as [Hlat Hlon].
      by rewrite Hlat, Hlon, Ez.
    + by rewrite Hf.
  - intros (u & Hin). apply elem_of_groupby in Hin as [(r & Hr & Ek) E].
    rewrite Hf in E. injection E as -> _.
    split; [|done]. exists r. split; [done|].
    destruct (Zone r) as [z'|]; [|done]. by injection Ek as ->.
Qed.

Lemma zone_views_agree_three_sales :
  anchored three_sales
  /\ (("South"%string, Q2Qc 300) ∈ zone_totals three_sales <->
      exists u, ("South"%string, lat (zone_anchor (Some "South"%string)),
                 lon (zone_anchor (Some "South"%string)), (Q2Qc 300, u))
                ∈ zone_agg three_sales).
Proof.
  assert (Ha : anchored three_sales).
  { unfold anchored. apply Forall_forall. apply (bool_decide_unpack _).
    by vm_compute. }
  split; [exact Ha|].
  exact (zone_views_agree three_sales "South" (Q2Qc 300) Ha).
Defined.

(** ** The strict date format *)

Lemma digit_range (c : ascii) (d : Z) :
  Strptime.digit c = Some d -> (0 <= d <= 9)%Z.
Proof.
  unfold Strptime.digit.
  destruct (48 <=? N_of_ascii c)%N eqn:E1; [|done].
  destruct (N_of_ascii c <=? 57)%N eqn:E2; [|done].
  apply N.leb_le in E1, E2. intros [= <-]. lia.
Qed.

Lemma month_abbr_range (a b c : ascii) (m : Z) :
  Strptime.month_abbr a b c = Some m -> (1 <= m <= 12)%Z.
Proof.
  unfold Strptime.month_abbr.
  repeat (match goal with
          | |- context [String.eqb ?x ?y] => destruct (String.eqb x y)
          end; [intros [= <-]; lia|]).
  done.
Qed.

(** X18. A label that matches the strict format has six characters, and its
    date is the first day, at midnight, of a month from January 1969 to
    December 2068: the two-digit year never yields a date outside these
    hundred years. *)
Theorem strict_date_range (s : string) (t : timestamp) :
  Strptime.parse s = Some t ->
  String.length s = 6%nat
  /\ day t = 1%Z /\ time t = 0%Z
  /\ (1 <= month t <= 12)%Z /\ (1969 <= year t <= 2068)%Z.
Proof.
  destruct s as [|a [|b [|c [|q [|d1 [|d2 [|x s]]]]]]]; try done.
  cbn [Strptime.parse].
  destruct (Ascii.eqb q "'"); [|done].
  destruct (Strptime.month_abbr a b c) as [m|] eqn:Em; [|done].
  destruct (Strptime.digit d1) as [y1|] eqn:E1; [|done].
  destruct (Strptime.digit d2) as [y2|] eqn:E2; [|done].
  intros [= <-]. cbn [year month day time String.length].
  apply month_abbr_range in Em. apply digit_range in E1, E2.
  unfold Strptime.century.
  destruct (Z.leb_spec (10 * y1 + y2) 68); repeat split; lia.
Qed.

Lemma strict_date_range_nov24 :
  Strptime.parse "Nov'24" = Some (Timestamp 2024 11 1 0)
  /\ String.length "Nov'24" = 6%nat
  /\ (1969 <= year (Timestamp 2024 11 1 0) <= 2068)%Z.
Proof.
  assert (Hp : Strptime.parse "Nov'24" = Some (Timestamp 2024 11 1 0))
    by reflexivity.
  destruct (strict_date_range "Nov'24" (Timestamp 2024 11 1 0) Hp)
    as (Hlen & _ & _ & _ & Hy).
  exact (conj Hp (conj Hlen Hy)).
Defined.

(** ** Revenue under a filter *)

Lemma sum_of_sublist (val : source_row -> num) (d df : list row) :
  sublist d df ->
  (forall r : row, r ∈ df -> 0 <= default 0 (val r)) ->
  0 <= sum_of val d /\ sum_of val d <= sum_of val df.
Proof.
  induction 1 as [|x d df Hs IH|x d df Hs IH]; intros Hpos.
  - rewrite sum_of_nil. split; apply Qcle_refl.
  - destruct IH as [IH0 IHle]; [intros r Hr; apply Hpos; by right|].
    rewrite !sum_of_cons.
    assert (Hx := Hpos x (list_elem_of_here _ _)). split.
    + replace 0 with (0 + 0) by ring. by apply Qcplus_le_compat.
    + apply Qcplus_le_compat; [apply Qcle_refl | done].
  - destruct IH as [IH0 IHle]; [intros r Hr; apply Hpos; by right|].
    rewrite sum_of_cons.
    assert (Hx := Hpos x (list_elem_of_here _ _)). split; [done|].
    replace (sum_of val d) with (0 + sum_of val d) by ring.
    by apply Qcplus_le_compat.
Qed.

(** X19. When no sale has a negative amount, the revenue of a filtered table
    lies between zero and the revenue of the whole table, for every
    selection. *)
Theorem filtered_revenue_bounded (df : list row) (s : selection) :
  no_negative_amount df ->
  0 <= kpi_rev (df_filtered df s) /\ kpi_rev (df_filtered df s) <= kpi_rev df.
Proof.
  intros Hpos. apply (sum_of_sublist Amount).
  - rewrite df_filtered_filter. apply sublist_filter.
  - intros r Hr. destruct (Amount r) as [a|] eqn:Ea; [|apply Qcle_refl].
    by apply (Hpos r a).
Qed.

Lemma filtered_revenue_three_sales :
  no_negative_amount three_sales
  /\ 0 <= kpi_rev (df_filtered three_sales (Selection [] [Some "South"%string] []))
  /\ kpi_rev (df_filtered three_sales (Selection [] [Some "South"%string] []))
     <= kpi_rev three_sales.
Proof.
  assert (Hpos : no_negative_amount three_sales).
  { assert (Hall : Forall (fun r : row => forall a, Amount r = Some a -> 0 <= a)
                          three_sales).
    { repeat constructor; intros a [= <-]; by vm_compute. }
    intros r a Hr. rewrite Forall_forall in Hall. by apply Hall. }
  split; [exact Hpos|].
  exact (filtered_revenue_bounded three_sales
           (Selection [] [Some "South"%string] []) Hpos).
Defined.

(** ** The columns of the loaded frame *)

Lemma elem_of_setitem (name c : string) (cols : list string) :
  c ∈ setitem name cols <-> c = name \/ c ∈ cols.
Proof.
  unfold setitem. case_bool_decide as Hin.
  - split; [by right|]. by intros [->|Hc].
  - rewrite elem_of_app, list_elem_of_singleton. tauto.
Qed.

Lemma NoDup_setitem (name : string) (cols : list string) :
  NoDup cols -> NoDup (setitem name cols).
Proof.
  intros Hnd. unfold setitem. case_bool_decide as Hin; [done|].
  apply NoDup_app. split; [done|]. split; [|apply NoDup_singleton].
  intros x Hx Hx'. apply list_elem_of_singleton in Hx' as ->. done.
Qed.

Section LoaderColumns.
Variables read_csv read_excel : string -> read_result.
Variable to_datetime_coerce : list label -> label -> option timestamp.

(** X20. The loaded frame has the columns of the source and the four columns
    the loader assigns, [Date], [ASP], [Lat] and [Lon], none of them twice
    when the source has none twice; and it has as many records as the source
    has rows. *)
Theorem load_data_columns (filepath : string) (f : source) (fr : frame) :
  reader read_csv read_excel filepath = ReadOk f ->
  load_data read_csv read_excel to_datetime_coerce filepath = Done fr ->
  (forall c, c ∈ columns fr <-> c ∈ src_columns f \/ c ∈ assigned_columns)
  /\ (NoDup (src_columns f) -> NoDup (columns fr))
  /\ length (rows fr) = length (src_rows f).
Proof.
  intros Hread Hload.
  destruct (load_data_Done_inv read_csv read_excel to_datetime_coerce
              filepath fr Hload) as (f' & Hread' & Hreq & Hrows).
  rewrite Hread in Hread'. injection Hread' as <-.
  rewrite (load_data_Done read_csv read_excel to_datetime_coerce
             filepath f Hread Hreq) in Hload.
  injection Hload as <-. cbn [columns rows]. split; [|split].
  - intros c. rewrite !elem_of_setitem. unfold assigned_columns.
    rewrite !elem_of_cons, elem_of_nil. tauto.
  - intros Hnd. by do 4 apply NoDup_setitem.
  - by rewrite length_fmap.
Qed.
End LoaderColumns.

Lemma load_data_columns_hollow :
  (forall c, c ∈ columns hollow_frame
             <-> c ∈ src_columns hollow_source \/ c ∈ assigned_columns)
  /\ (NoDup (src_columns hollow_source) -> NoDup (columns hollow_frame))
  /\ length (rows hollow_frame) = length (src_rows hollow_source).
Proof.
  assert (Hload : sample_load hollow_source "sales.csv" = Done hollow_frame)
    by (by vm_compute).
  exact (load_data_columns (fun _ => ReadOk hollow_source)
           (fun _ => FileNotFound) knows_no_format "sales.csv"
           hollow_source hollow_frame eq_refl Hload).
Defined.
